(** * Scroll-physics engine of [main.js]

    A shallow embedding of section C of [src/main.js] ("custom smooth
    scroll engine"): the [state] object, the two [window] bridges, the
    wheel / keydown / touch listeners, [calculateBounds] and the
    per-frame integrator [fluidScrollRender].

    Numbers.  A JavaScript number is modelled by an exact rational
    ([Q]); all arithmetic of the engine is [+], [-], [*], [/],
    [Math.max], [Math.min], which [Q] has.  Rounding, [NaN] and the
    infinities are outside the model.  Equality of numbers is [==]
    ([Qeq]).

    Environment.  The two layout queries of the engine,
    [scrollContent.getBoundingClientRect().height] and
    [window.innerHeight], are read from a [layout] record handed to the
    listener that performs the query.

    Left out.  The fields of [state] the engine never reads
    ([audioUnlocked], [mouse], [timeWasted]), the writes to the DOM, and
    what GSAP does on its own clock: the rewind tween started by the
    click listener of [#btn-rewind] and the setter of the scroller
    proxy. *)

From Stdlib Require Import QArith Qminmax Qabs Lqa ZArith String List Bool Lia.
From Stdlib Require Import PrimFloat.
From Stdlib Require Import Qround.
Import ListNotations.

Open Scope Q_scope.

(** ** A. Globals and state *)

(** [state.scroll] *)
Record scrollT : Type := mkScroll {
  y        : Q;
  target   : Q;
  limit    : Q;
  ease     : Q;
  velocity : Q
}.

(** [state], the two bridges [window.__SCROLL_MOMENTUM] and
    [window.__GLOBAL_PROGRESS], and the closure variable [touchY] of
    [initSmoothScroll]. *)
Record stateT : Type := mkState {
  isLoaded          : bool;
  scroll            : scrollT;
  __SCROLL_MOMENTUM : Q;
  __GLOBAL_PROGRESS : Q;
  touchY            : Q
}.

(** The layout metrics the engine queries. *)
Record layout : Type := mkLayout {
  contentHeight : Q;   (* scrollContent.getBoundingClientRect().height *)
  innerHeight   : Q    (* window.innerHeight *)
}.

(** The object literal of [const state = { ... }] together with the two
    assignments that precede it. *)
Definition state : stateT :=
  {| isLoaded := false;
     scroll := {| y := 0; target := 0; limit := 0; ease := 0.08; velocity := 0 |};
     __SCROLL_MOMENTUM := 0;
     __GLOBAL_PROGRESS := 0;
     touchY := 0 |}.

(** Field updates of [state.scroll]. *)
Definition set_y (v : Q) (sc : scrollT) : scrollT :=
  {| y := v; target := target sc; limit := limit sc; ease := ease sc;
     velocity := velocity sc |}.
Definition set_target (v : Q) (sc : scrollT) : scrollT :=
  {| y := y sc; target := v; limit := limit sc; ease := ease sc;
     velocity := velocity sc |}.
Definition set_limit (v : Q) (sc : scrollT) : scrollT :=
  {| y := y sc; target := target sc; limit := v; ease := ease sc;
     velocity := velocity sc |}.
Definition set_velocity (v : Q) (sc : scrollT) : scrollT :=
  {| y := y sc; target := target sc; limit := limit sc; ease := ease sc;
     velocity := v |}.

(** Field updates of the whole state. *)
Definition with_scroll (f : scrollT -> scrollT) (s : stateT) : stateT :=
  {| isLoaded := isLoaded s; scroll := f (scroll s);
     __SCROLL_MOMENTUM := __SCROLL_MOMENTUM s;
     __GLOBAL_PROGRESS := __GLOBAL_PROGRESS s;
     touchY := touchY s |}.
Definition set_momentum (v : Q) (s : stateT) : stateT :=
  {| isLoaded := isLoaded s; scroll := scroll s;
     __SCROLL_MOMENTUM := v;
     __GLOBAL_PROGRESS := __GLOBAL_PROGRESS s;
     touchY := touchY s |}.
Definition set_progress (v : Q) (s : stateT) : stateT :=
  {| isLoaded := isLoaded s; scroll := scroll s;
     __SCROLL_MOMENTUM := __SCROLL_MOMENTUM s;
     __GLOBAL_PROGRESS := v;
     touchY := touchY s |}.
Definition set_touchY (v : Q) (s : stateT) : stateT :=
  {| isLoaded := isLoaded s; scroll := scroll s;
     __SCROLL_MOMENTUM := __SCROLL_MOMENTUM s;
     __GLOBAL_PROGRESS := __GLOBAL_PROGRESS s;
     touchY := v |}.
Definition set_isLoaded (b : bool) (s : stateT) : stateT :=
  {| isLoaded := b; scroll := scroll s;
     __SCROLL_MOMENTUM := __SCROLL_MOMENTUM s;
     __GLOBAL_PROGRESS := __GLOBAL_PROGRESS s;
     touchY := touchY s |}.

(** ** C. Custom smooth scroll engine *)

(** [Math.max(0, Math.min(t, limit))], the clamp every input path ends with. *)
Definition clampTarget (sc : scrollT) : scrollT :=
  set_target (Qmax 0 (Qmin (target sc) (limit sc))) sc.

(** The assignment
    [state.scroll.limit = scrollContent.getBoundingClientRect().height - window.innerHeight]. *)
Definition assignLimit (l : layout) (s : stateT) : stateT :=
  with_scroll (set_limit (contentHeight l - innerHeight l)) s.

(** The listener hooked on ScrollTrigger's "refresh". *)
Definition refreshListener (l : layout) (s : stateT) : stateT :=
  assignLimit l s.

(** [calculateBounds], as the "resize" listener runs it: the assignment,
    then [ScrollTrigger.refresh()], which fires the "refresh" listener.
    Whatever else the library does during a refresh (it may write a
    recorded position back through the scroller proxy, [scrollTop]
    below) is the library's and not modelled; at rest such a write-back
    changes nothing. *)
Definition calculateBounds (l : layout) (s : stateT) : stateT :=
  refreshListener l (assignLimit l s).

(** The "wheel" listener, applied to [e.deltaY] and [e.deltaMode]. *)
Definition wheel (deltaY : Q) (deltaMode : Z) (s : stateT) : stateT :=
  if negb (isLoaded s) then s
  else
    let delta := deltaY in
    let delta := if (deltaMode =? 1)%Z then delta * 40 else delta in
    let s := with_scroll (fun sc => set_target (target sc + delta) sc) s in
    with_scroll clampTarget s.

(** The "keydown" listener, applied to [e.key].  [keySwitch] is its
    [switch]: it yields [amount] and performs the assignment of the
    Home and End cases.  The second component of [keydown] tells whether
    [e.preventDefault()] was called. *)
Definition keySwitch (l : layout) (key : string) (s : stateT) : Q * stateT :=
  if (key =? "ArrowDown")%string then (100, s)
  else if (key =? "ArrowUp")%string then (- (100), s)
  else if ((key =? "PageDown") || (key =? " "))%string then
    (innerHeight l * 0.8, s)
  else if (key =? "PageUp")%string then (- innerHeight l * 0.8, s)
  else if (key =? "Home")%string then (0, with_scroll (set_target 0) s)
  else if (key =? "End")%string then
    (0, with_scroll (fun sc => set_target (limit sc) sc) s)
  else (0, s).

Definition keydown (l : layout) (key : string) (s : stateT) : stateT * bool :=
  if negb (isLoaded s) then (s, false)
  else
    let (amount, s) := keySwitch l key s in
    if negb (Qeq_bool amount 0) then
      let s := with_scroll (fun sc => set_target (target sc + amount) sc) s in
      let s := with_scroll clampTarget s in
      (s, true)
    else (s, false).

(** The amount the [switch] gives a key; it does not depend on the
    state. *)
Definition keyAmount (l : layout) (key : string) : Q :=
  fst (keySwitch l key state).

(** The "touchstart" and "touchmove" listeners, applied to
    [e.touches[0].clientY]. *)
Definition touchstart (clientY : Q) (s : stateT) : stateT :=
  set_touchY clientY s.

Definition touchmove (clientY : Q) (s : stateT) : stateT :=
  if negb (isLoaded s) then s
  else
    let deltaY := touchY s - clientY in
    let s := set_touchY clientY s in
    let s := with_scroll (fun sc => set_target (target sc + deltaY * 2.5) sc) s in
    with_scroll clampTarget s.

(** [fluidScrollRender], one animation frame.  The writes to element
    styles, the HUD and the fingerprint recorder leave the state alone;
    so does [ScrollTrigger.update()], which only reads the position
    through the scroller proxy. *)
Definition fluidScrollRender (s : stateT) : stateT :=
  let s := with_scroll
             (fun sc => set_y (y sc + (target sc - y sc) * ease sc) sc) s in
  let vel := target (scroll s) - y (scroll s) in
  let s := with_scroll (set_velocity vel) s in
  let s := set_momentum (velocity (scroll s)) s in
  if Qlt_le_dec 0 (limit (scroll s)) then
    set_progress (Qmax 0 (Qmin 1 (y (scroll s) / limit (scroll s)))) s
  else s.

(** [n] consecutive frames of the [requestAnimationFrame] loop. *)
Fixpoint frames (n : nat) (s : stateT) : stateT :=
  match n with
  | O => s
  | S k => frames k (fluidScrollRender s)
  end.

(** [onComplete] of the loader fade: [state.isLoaded = true]. *)
Definition worldBooted (s : stateT) : stateT := set_isLoaded true s.

(** [initSmoothScroll]: bounds are computed once (the "refresh" listener
    is not hooked yet), the listeners are registered, and the last
    statement runs the first frame. *)
Definition initSmoothScroll (l : layout) (s : stateT) : stateT :=
  fluidScrollRender (assignLimit l s).

(** ** Events *)

(** What the host can deliver to the engine.  Layout queries are
    answered by the [layout] carried by the event. *)
Inductive event : Type :=
| Wheel (deltaY : Q) (deltaMode : Z)
| KeyDown (l : layout) (key : string)
| TouchStart (clientY : Q)
| TouchMove (clientY : Q)
| Frame
| Resize (l : layout)
| WorldBooted.

Definition step (s : stateT) (e : event) : stateT :=
  match e with
  | Wheel d m => wheel d m s
  | KeyDown l k => fst (keydown l k s)
  | TouchStart c => touchstart c s
  | TouchMove c => touchmove c s
  | Frame => fluidScrollRender s
  | Resize l => calculateBounds l s
  | WorldBooted => worldBooted s
  end.

Definition run (s : stateT) (es : list event) : stateT :=
  fold_left step es s.

(** Input updates: wheel, keyboard and touch. *)
Definition isInput (e : event) : bool :=
  match e with
  | Wheel _ _ | KeyDown _ _ | TouchStart _ | TouchMove _ => true
  | _ => false
  end.

Definition isFrame (e : event) : bool :=
  match e with Frame => true | _ => false end.

(** A loaded engine at rest at [pos] with the given [limit]. *)
Definition loadedAt (pos lim : Q) : stateT :=
  {| isLoaded := true;
     scroll := {| y := pos; target := pos; limit := lim; ease := 0.08;
                  velocity := 0 |};
     __SCROLL_MOMENTUM := 0;
     __GLOBAL_PROGRESS := 0;
     touchY := 0 |}.

(** Distance left to travel. *)
Definition err (s : stateT) : Q := target (scroll s) - y (scroll s).

(** [r^n], the factor by which [n] frames shrink the error. *)
Fixpoint decay (r : Q) (n : nat) : Q :=
  match n with
  | O => 1
  | S k => r * decay r k
  end.

(** Events whose listener, once loaded, ends with the clamp: wheel,
    touch-move, and keydown of a key with a non-zero amount. *)
Definition clampsTarget (e : event) : bool :=
  match e with
  | Wheel _ _ | TouchMove _ => true
  | KeyDown l k => negb (Qeq_bool (keyAmount l k) 0)
  | _ => false
  end.

(** Events whose listener, once loaded, writes the target: the former,
    and keydown of Home or End. *)
Definition writesTarget (e : event) : bool :=
  match e with
  | KeyDown l k =>
      clampsTarget e || (k =? "Home")%string || (k =? "End")%string
  | _ => clampsTarget e
  end.

(** Events that leave [limit] alone: everything but a resize. *)
Definition keepsLimit (e : event) : bool :=
  match e with
  | Resize _ => false
  | _ => true
  end.

(** ** Invariants of the progress bridge *)

Definition progressInRange (s : stateT) : Prop :=
  0 <= __GLOBAL_PROGRESS s <= 1.

Definition progressZeroWithoutRoom (s : stateT) : Prop :=
  limit (scroll s) <= 0 -> __GLOBAL_PROGRESS s == 0.

(** ** The position update in binary64

    The same update, [y += (target - y) * ease], on IEEE 754 doubles,
    to check that the figures of scenario 1 do not depend on the exact
    arithmetic of the model. *)
Module Float64.

(** The double nearest to [0.08]. *)
Definition ease : float := 0x1.47ae147ae147bp-4%float.

Definition lerp (target y : float) : float :=
  (y + (target - y) * ease)%float.

Fixpoint lerps (n : nat) (target y : float) : float :=
  match n with
  | O => y
  | S k => lerps k target (lerp target y)
  end.

(** The same update for any value of [state.scroll.ease]. *)
Definition step (e target y : float) : float :=
  (y + (target - y) * e)%float.

(** [state.scroll.target - state.scroll.y], read after the update. *)
Definition vel (target y : float) : float := (target - lerp target y)%float.

(** Where the run from 0 towards 500 comes to rest. *)
Definition stall : float := 0x1.f3ffffffffffap+8%float.

(** The doubles nearest to 3.4e-13 and 3.5e-13. *)
Definition gapLow : float := 0x1.7ece53f0b3e55p-42%float.
Definition gapHigh : float := 0x1.8a10a1b4047b2p-42%float.

(** Frame [k + 1] of the run from 0 towards 500 is not below frame [k],
    not above 500, and frame [k] is more than [gapLow] short of 500. *)
Definition rises (k : nat) : bool :=
  PrimFloat.leb (lerps k 500 0) (lerps (S k) 500 0)
  && PrimFloat.leb (lerps (S k) 500 0) 500
  && PrimFloat.ltb gapLow (500 - lerps k 500 0).

(** A target just under 512 and a position just above 0, both doubles. *)
Definition nearTarget : float := 0x1.fffffffffffffp+8%float.
Definition nearZero : float := 0x1.8p-44%float.

End Float64.

(** ** Worked scenarios *)

(** Scenario 1: [limit = 1000], [ease = 0.08], at rest at [0], loaded;
    one wheel event with [deltaY = 500], [deltaMode = 0] (pixels); then
    one frame. *)
Definition wheel0 : stateT := loadedAt 0 1000.
Definition wheel1 : stateT := wheel 500 0 wheel0.
Definition wheel2 : stateT := fluidScrollRender wheel1.

(** Scenario 2: at rest at [800] with [limit = 1000]; the content
    shrinks so that [calculateBounds] yields [limit = 300]. *)
Definition shrink0 : stateT := loadedAt 800 1000.
Definition shrunkLayout : layout :=
  {| contentHeight := 1100; innerHeight := 800 |}.
Definition shrink1 : stateT := calculateBounds shrunkLayout shrink0.
Definition shrink2 : stateT := fluidScrollRender shrink1.

(** Scenario 3: content shorter than the viewport, [limit = -100]. *)
Definition shortLayout : layout :=
  {| contentHeight := 700; innerHeight := 800 |}.
Definition short0 : stateT := worldBooted (initSmoothScroll shortLayout state).

(** * Around the engine

    The rest of [main.js] that reads or writes the engine's state, and
    the consumers of its bridges in [canvas.js].  Where a listener
    draws from [Math.random()], the drawn number is an argument. *)

(** JavaScript's [x || 0] on a number. *)
Definition orZero (x : Q) : Q := if Qeq_bool x 0 then 0 else x.

(** [a < b] as a test. *)
Definition Qlt_bool (a b : Q) : bool := negb (Qle_bool b a).

(** ** The scroller proxy

    [scrollTop(value)] of the object given to
    [ScrollTrigger.scrollerProxy]; [None] stands for a call without
    argument.  The second component is the returned value. *)
Definition scrollTop (value : option Q) (s : stateT) : stateT * Q :=
  let s := match value with
           | Some v =>
               let s := with_scroll (set_target v) s in
               with_scroll (set_y v) s
           | None => s
           end in
  (s, y (scroll s)).

(** ** What a frame writes to the page

    The style writes of [fluidScrollRender], for a page that has the
    elements it looks up: the content offset, the progress frame, the
    velocity bar, and the pair handed to the fingerprint recorder. *)
Record frameDom : Type := mkFrameDom {
  contentTranslateY  : Q;           (* translate3d(0, _px, 0) *)
  progressTranslateY : option Q;    (* translateY(_%) *)
  velocityBarHeight  : option Q;    (* height: _px *)
  fingerprintData    : option (Q * Q)
}.

Definition fluidScrollRenderDom (s : stateT) : frameDom :=
  let s' := fluidScrollRender s in
  let vel := velocity (scroll s') in
  let prog := __GLOBAL_PROGRESS s' in
  if Qlt_le_dec 0 (limit (scroll s')) then
    {| contentTranslateY := - y (scroll s');
       progressTranslateY := Some ((prog - 1) * 100);
       velocityBarHeight := Some (Qmin 100 (Qabs vel * 2));
       fingerprintData := Some (Qabs vel, prog) |}
  else
    {| contentTranslateY := - y (scroll s');
       progressTranslateY := None;
       velocityBarHeight := None;
       fingerprintData := None |}.

(** ** The dilation scene

    The callback added to [gsap.ticker] in [initMasterTimeline];
    [dilator] tells whether [#stretch-element-1] exists.  [None]: the
    callback returned before writing. *)
Record dilatorStyle : Type := mkDilatorStyle {
  scaleX        : Q;
  scaleY        : Q;
  skew          : Q;   (* skewY(_deg) *)
  letterSpacing : Q    (* _px *)
}.

Definition dilatorTick (dilator : bool) (s : stateT) : option dilatorStyle :=
  if negb (isLoaded s) || negb dilator then None
  else
    let push := Qabs (velocity (scroll s)) * 0.05 in
    let scaleX := 1 + push in
    let scaleY := Qmax 0.2 (1 - push * 0.3) in
    let skew := velocity (scroll s) * 0.1 in
    Some {| scaleX := scaleX; scaleY := scaleY; skew := skew;
            letterSpacing := push * 10 |}.

(** ** D. Entrance loader

    The [setInterval] callback of [initLoaderSequence]. *)
Module Loader.

Record t : Type := mk {
  pct           : Q;
  interval      : bool;       (* loadInterval not cleared yet *)
  finishTimeout : bool;       (* the 500 ms finish callback is queued *)
  shown         : option Q    (* pctNode.innerText, and the bar width in % *)
}.

Definition init : t :=
  {| pct := 0; interval := true; finishTimeout := false; shown := None |}.

(** [Math.floor(Math.random() * 15) + 1] *)
Definition jump (random : Q) : Q := inject_Z (Qfloor (random * 15)) + 1.

Definition tick (random : Q) (st : t) : t :=
  if negb (interval st) then st
  else
    let pct := pct st + jump random in
    if Qle_bool 100 pct then
      {| pct := 100; interval := false; finishTimeout := true;
         shown := Some 100 |}
    else
      {| pct := pct; interval := interval st;
         finishTimeout := finishTimeout st; shown := Some pct |}.

Definition ticks (randoms : list Q) (st : t) : t :=
  fold_left (fun st r => tick r st) randoms st.

End Loader.

(** What [Math.random()] can return. *)
Definition isRandom (r : Q) : Prop := 0 <= r < 1.

(** ** Audio engine: boot and mute

    [AudioEngine_Boot] and [AudioEngine_ToggleMute] of [canvas.js], with
    the two click listeners of [main.js] that call them. *)
Module Audio.

Record t : Type := mk {
  actx       : bool;       (* actx is not null *)
  isMuted    : bool;
  gainTarget : option Q    (* masterGain.gain: its value, then its target *)
}.

Definition init : t :=
  {| actx := false; isMuted := false; gainTarget := None |}.

Definition boot (a : t) : t :=
  if actx a then a
  else {| actx := true; isMuted := isMuted a; gainTarget := Some 1 |}.

Definition toggleMute (a : t) : t :=
  if negb (actx a) then a
  else
    let isMuted := negb (isMuted a) in
    {| actx := actx a; isMuted := isMuted;
       gainTarget := Some (if isMuted then 0 else 1) |}.

(** The page side: the class [muted] of [#audio-toggle] and
    [state.audioUnlocked]. *)
Record page : Type := mkPage {
  engine        : t;
  toggleClass   : bool;
  audioUnlocked : bool
}.

Inductive click : Type := EnterBtn | AudioToggle.

Definition onClick (p : page) (c : click) : page :=
  match c with
  | EnterBtn =>
      {| engine := boot (engine p); toggleClass := toggleClass p;
         audioUnlocked := true |}
  | AudioToggle =>
      {| engine := toggleMute (engine p);
         toggleClass := negb (toggleClass p);
         audioUnlocked := audioUnlocked p |}
  end.

Definition clicks (p : page) (cs : list click) : page :=
  fold_left onClick cs p.

(** [scheduleClockTick]: the intensity handed to the tick synthesiser
    and the delay of the next call. *)
Definition baseTickInterval : Q := 1000.

Definition scheduleClockTick (a : t) (s : stateT) : option (Q * Q) :=
  if negb (actx a) then None
  else
    let scrollVel := Qabs (orZero (__SCROLL_MOMENTUM s)) in
    let intensity := Qmin (scrollVel / 1500) 1 in
    let dynamicInterval := baseTickInterval - intensity * 920 in
    let dynamicInterval := Qmax dynamicInterval 80 in
    Some (intensity, dynamicInterval).

(** [modulateAudioByScroll]: the frequency the low-pass is sent to. *)
Definition modulateAudioByScroll (a : t) (s : stateT) : option Q :=
  if negb (actx a) then None
  else
    let scrollVel := Qabs (orZero (__SCROLL_MOMENTUM s)) in
    let intensity := Qmin (scrollVel / 1000) 1 in
    Some (22000 - intensity * 21500).

End Audio.

(** ** Shader uniforms

    Step 5.2 of [render] in [canvas.js]: the two scroll uniforms chase
    the bridges. *)
Record uniformsT : Type := mkUniforms {
  u_scrollVelocity : Q;
  u_scrollProgress : Q
}.

Definition uniforms : uniformsT :=
  {| u_scrollVelocity := 0; u_scrollProgress := 0 |}.

Definition renderScrollHooks (s : stateT) (u : uniformsT) : uniformsT :=
  let sVel := orZero (__SCROLL_MOMENTUM s) in
  let sProg := orZero (__GLOBAL_PROGRESS s) in
  {| u_scrollVelocity :=
       u_scrollVelocity u + (sVel - u_scrollVelocity u) * 0.1;
     u_scrollProgress :=
       u_scrollProgress u + (sProg - u_scrollProgress u) * 0.1 |}.

(** The engine and the shader loop side by side: either an event
    reaches the engine or the shader renders. *)
Inductive tickT : Type :=
| Engine (e : event)
| Render.

Definition worldStep (w : stateT * uniformsT) (t : tickT) : stateT * uniformsT :=
  match t with
  | Engine e => (step (fst w) e, snd w)
  | Render => (fst w, renderScrollHooks (fst w) (snd w))
  end.

Definition worldRun (w : stateT * uniformsT) (ts : list tickT)
  : stateT * uniformsT :=
  fold_left worldStep ts w.

(** ** Hourglass

    [setScrollData], the levels of [updateSandLevels] and the spawn
    test of [render] in [HourglassEngine]. *)
Module Hourglass.

Record t : Type := mk {
  progress       : Q;
  scrollVelocity : Q;
  lastSpawnTime  : Q
}.

Definition init : t :=
  {| progress := 0; scrollVelocity := 0; lastSpawnTime := 0 |}.

Definition setScrollData (p v : Q) (h : t) : t :=
  {| progress := Qmax 0 (Qmin 1 p);
     scrollVelocity := Qabs v;
     lastSpawnTime := lastSpawnTime h |}.

Definition topY (h : t) : Q := 25 + 168 * progress h.
Definition botY (h : t) : Q := 375 - 168 * progress h.

(** The height at which the bottom sand is drawn. *)
Definition botDrawn (h : t) : Q := Qmax 207 (botY h).

(** The two nested [if]s of [render]. *)
Definition spawnDue (time : Q) (h : t) : bool :=
  (Qlt_bool 0.05 (progress h) && Qlt_bool (progress h) 0.95
   && Qlt_bool 5 (scrollVelocity h))
  && Qlt_bool (2000 / Qmax 10 (scrollVelocity h)) (time - lastSpawnTime h).

Definition spawnCount (h : t) : Q :=
  Qmin 5 (inject_Z (Qceiling (scrollVelocity h / 100))).

End Hourglass.

(** ** Melting clocks

    [setMeltFactor] of [MeltingClockRenderer], and the [onUpdate] of its
    trigger in [main.js]. *)
Definition setMeltFactor (factor : Q) (meltFactor : Q) : Q :=
  meltFactor + (Qmax 0 (Qmin 1 factor) - meltFactor) * 0.1.

Definition daliOnUpdate (selfProgress : Q) (meltFactor : Q) : Q :=
  setMeltFactor (selfProgress * 1.5) meltFactor.

(** ** Timeline

    [activateNode] of [TimelineAnimator].  [nodes] holds, for each
    timeline node in document order, whether it carries [is-active].
    The scale written to the line is [(index + 1) / nodes.length]; with
    no node at all JavaScript divides by zero, which [Q] does not
    render, so the properties below are stated for a non-empty list. *)
Module Timeline.

Record t : Type := mk {
  nodes       : list bool;
  activeIndex : Z;
  lineScaleY  : option Q
}.

(** [nodes.forEach((node, i) => ...)], started at index [i]. *)
Fixpoint mark (i index : Z) (ns : list bool) : list bool :=
  match ns with
  | [] => []
  | _ :: rest => (i <=? index)%Z :: mark (i + 1) index rest
  end.

Definition activateNode (index : Z) (tl : t) : t :=
  if (index =? activeIndex tl)%Z then tl
  else
    {| nodes := mark 0 index (nodes tl);
       activeIndex := index;
       lineScaleY :=
         Some (inject_Z (index + 1) / inject_Z (Z.of_nat (length (nodes tl)))) |}.

(** The constructor: nothing active yet, line untouched. *)
Definition init (classes : list bool) : t :=
  {| nodes := classes; activeIndex := -1; lineScaleY := None |}.

End Timeline.

(** * Properties *)

(** Case analysis on the guards of a listener. *)
Ltac listener :=
  repeat match goal with
         | |- context [if ?b then _ else _] => destruct b
         end;
  try reflexivity.

(** ** The integrator frame *)

Section Frame.

Variable s : stateT.

Let sc := scroll s.

(** The scroll record after one frame, field by field. *)
Lemma frame_scroll :
  scroll (fluidScrollRender s) =
  {| y := y sc + (target sc - y sc) * ease sc;
     target := target sc;
     limit := limit sc;
     ease := ease sc;
     velocity := target sc - (y sc + (target sc - y sc) * ease sc) |}.
Proof.
  unfold fluidScrollRender, sc.
  destruct (Qlt_le_dec _ _); reflexivity.
Qed.

Lemma frame_y :
  y (scroll (fluidScrollRender s)) = y sc + (target sc - y sc) * ease sc.
Proof. rewrite frame_scroll. reflexivity. Qed.

Lemma frame_target : target (scroll (fluidScrollRender s)) = target sc.
Proof. rewrite frame_scroll. reflexivity. Qed.

Lemma frame_limit : limit (scroll (fluidScrollRender s)) = limit sc.
Proof. rewrite frame_scroll. reflexivity. Qed.

Lemma frame_ease : ease (scroll (fluidScrollRender s)) = ease sc.
Proof. rewrite frame_scroll. reflexivity. Qed.

Lemma frame_velocity :
  velocity (scroll (fluidScrollRender s)) =
  target sc - (y sc + (target sc - y sc) * ease sc).
Proof. rewrite frame_scroll. reflexivity. Qed.

Lemma frame_isLoaded : isLoaded (fluidScrollRender s) = isLoaded s.
Proof.
  unfold fluidScrollRender. destruct (Qlt_le_dec _ _); reflexivity.
Qed.

Lemma frame_touchY : touchY (fluidScrollRender s) = touchY s.
Proof.
  unfold fluidScrollRender. destruct (Qlt_le_dec _ _); reflexivity.
Qed.

Lemma frame_momentum :
  __SCROLL_MOMENTUM (fluidScrollRender s) =
  velocity (scroll (fluidScrollRender s)).
Proof.
  unfold fluidScrollRender. destruct (Qlt_le_dec _ _); reflexivity.
Qed.

(** The progress bridge is written only under the guard
    [state.scroll.limit > 0]. *)
Lemma frame_progress_pos :
  0 < limit sc ->
  __GLOBAL_PROGRESS (fluidScrollRender s) =
  Qmax 0 (Qmin 1 (y (scroll (fluidScrollRender s)) / limit sc)).
Proof.
  intros H. unfold fluidScrollRender.
  destruct (Qlt_le_dec _ _) as [_ | Hle]; [reflexivity |].
  exfalso. cbn in Hle. fold sc in Hle. lra.
Qed.

Lemma frame_progress_nonpos :
  limit sc <= 0 ->
  __GLOBAL_PROGRESS (fluidScrollRender s) = __GLOBAL_PROGRESS s.
Proof.
  intros H. unfold fluidScrollRender.
  destruct (Qlt_le_dec _ _) as [Hlt | _]; [| reflexivity].
  exfalso. cbn in Hlt. fold sc in Hlt. lra.
Qed.

(** One frame multiplies the error by [1 - ease]. *)
Lemma frame_err : err (fluidScrollRender s) == (1 - ease sc) * err s.
Proof.
  unfold err. rewrite frame_target, frame_y. fold sc. ring.
Qed.

End Frame.

(** ** Runs of frames *)

Lemma frames_S (n : nat) (s : stateT) :
  frames (S n) s = fluidScrollRender (frames n s).
Proof.
  revert s. induction n as [| n IH]; intros s; [reflexivity |].
  change (frames (S (S n)) s) with (frames (S n) (fluidScrollRender s)).
  rewrite IH. reflexivity.
Qed.

Lemma frames_target (n : nat) (s : stateT) :
  target (scroll (frames n s)) = target (scroll s).
Proof.
  induction n as [| n IH]; [reflexivity |].
  rewrite frames_S, frame_target. exact IH.
Qed.

Lemma frames_limit (n : nat) (s : stateT) :
  limit (scroll (frames n s)) = limit (scroll s).
Proof.
  induction n as [| n IH]; [reflexivity |].
  rewrite frames_S, frame_limit. exact IH.
Qed.

Lemma frames_ease (n : nat) (s : stateT) :
  ease (scroll (frames n s)) = ease (scroll s).
Proof.
  induction n as [| n IH]; [reflexivity |].
  rewrite frames_S, frame_ease. exact IH.
Qed.

(** Closed form of the error after [n] frames. *)
Lemma frames_err (n : nat) (s : stateT) :
  err (frames n s) == decay (1 - ease (scroll s)) n * err s.
Proof.
  induction n as [| n IH].
  - cbn [frames decay]. ring.
  - rewrite frames_S, frame_err, frames_ease, IH. cbn [decay]. ring.
Qed.

Lemma frames_y (n : nat) (s : stateT) :
  y (scroll (frames n s)) ==
  target (scroll s) - decay (1 - ease (scroll s)) n * err s.
Proof.
  rewrite <- frames_err. unfold err. rewrite frames_target. ring.
Qed.

Lemma decay_nonneg (r : Q) (n : nat) : 0 <= r -> 0 <= decay r n.
Proof.
  intros Hr. induction n as [| n IH]; cbn [decay]; [lra | nra].
Qed.

(** Bernoulli's bound, in the form that needs no division. *)
Lemma decay_bound (e : Q) (n : nat) :
  0 < e <= 1 -> decay (1 - e) n * (1 + inject_Z (Z.of_nat n) * e) <= 1.
Proof.
  intros He. induction n as [| n IH].
  - cbn [decay Z.of_nat]. change (inject_Z 0) with 0. lra.
  - assert (Hd : 0 <= decay (1 - e) n) by (apply decay_nonneg; lra).
    rewrite Nat2Z.inj_succ. unfold Z.succ. rewrite inject_Z_plus.
    cbn [decay].
    assert (Hn : 0 <= inject_Z (Z.of_nat n)).
    { change 0 with (inject_Z 0). rewrite <- Zle_Qle. lia. }
    set (d := decay (1 - e) n) in *.
    set (k := inject_Z (Z.of_nat n)) in *.
    change (inject_Z 1) with 1.
    assert (H1 : 0 <= d * e * e * (k + 1)).
    { assert (0 <= d * e) by nra. assert (0 <= e * (k + 1)) by nra. nra. }
    nra.
Qed.

(** ** Scenario 1 *)

Lemma wheel1_target : target (scroll wheel1) == 500.
Proof. vm_compute. reflexivity. Qed.

Lemma wheel2_y : y (scroll wheel2) == 40.
Proof. vm_compute. reflexivity. Qed.

Lemma wheel2_velocity : velocity (scroll wheel2) == 460.
Proof. vm_compute. reflexivity. Qed.

Lemma decay_compat (r r' : Q) (n : nat) : r == r' -> decay r n == decay r' n.
Proof.
  intros Hr. induction n as [| n IH]; cbn [decay]; [reflexivity |].
  rewrite IH, Hr. reflexivity.
Qed.

(** Position [n] frames after [wheel2]: [500 - 0.92^n * 460]. *)
Lemma wheel2_frames_y (n : nat) :
  y (scroll (frames n wheel2)) == 500 - decay (92 # 100) n * 460.
Proof.
  rewrite frames_y.
  assert (Ht : target (scroll wheel2) == 500) by (vm_compute; reflexivity).
  assert (He : 1 - ease (scroll wheel2) == 92 # 100)
    by (vm_compute; reflexivity).
  assert (Hr : err wheel2 == 460) by (vm_compute; reflexivity).
  rewrite Ht, Hr, (decay_compat _ _ n He). reflexivity.
Qed.

Lemma wheel2_after_50 : 7 < 500 - y (scroll (frames 50 wheel2)) < 72 # 10.
Proof. rewrite wheel2_frames_y. split; vm_compute; reflexivity. Qed.

Lemma wheel2_after_156 : 1 # 1000 < 500 - y (scroll (frames 156 wheel2)).
Proof. rewrite wheel2_frames_y. vm_compute. reflexivity. Qed.

Lemma wheel2_after_157 :
  0 < 500 - y (scroll (frames 157 wheel2)) < 1 # 1000.
Proof. rewrite wheel2_frames_y. split; vm_compute; reflexivity. Qed.

(** On doubles the first frame lands on 40 exactly, and 50 frames later
    the position is still more than 7 short of 500. *)
Lemma float64_after_1 : Float64.lerps 1 500 0 = 40%float.
Proof. vm_compute. reflexivity. Qed.

Lemma float64_after_51 :
  PrimFloat.ltb (Float64.lerps 51 500 0) 493 = true /\
  PrimFloat.ltb 492 (Float64.lerps 51 500 0) = true.
Proof. split; vm_compute; reflexivity. Qed.

Lemma Qabs_flip (a b : Q) : Qabs (a - b) == Qabs (b - a).
Proof.
  rewrite <- (Qabs_opp (b - a)).
  assert (H : - (b - a) == a - b) by ring.
  rewrite H. reflexivity.
Qed.

(** C1, as stated, fails: 50 frames after the first one the position is
    still more than 7 pixels short of 500, not within 0.001 of it. *)
Lemma C1_fifty_more_frames_not_within_tolerance :
  ~ (target (scroll wheel1) == 500 /\
     y (scroll wheel2) == 40 /\
     velocity (scroll wheel2) == 460 /\
     Qabs (y (scroll (frames 50 wheel2)) - 500) < 1 # 1000).
Proof.
  intros (_ & _ & _ & H).
  rewrite Qabs_flip in H.
  apply Qabs_Qlt_condition in H.
  pose proof wheel2_after_50 as [H7 _].
  lra.
Qed.

(** C1 (amended).  With [limit = 1000], [ease = 0.08], position [0] and
    one wheel delta of [+500] in pixel mode, [target] becomes [500]; one
    frame yields position [40] and velocity [460]; after 50 more frames
    the position is between 7 and 7.2 short of [500]; it is within 0.001
    of [500] after 157 more frames, and not yet after 156. *)
Theorem C1_wheel_then_frames :
  target (scroll wheel1) == 500 /\
  y (scroll wheel2) == 40 /\
  velocity (scroll wheel2) == 460 /\
  7 < Qabs (y (scroll (frames 50 wheel2)) - 500) < 72 # 10 /\
  ~ Qabs (y (scroll (frames 156 wheel2)) - 500) < 1 # 1000 /\
  Qabs (y (scroll (frames 157 wheel2)) - 500) < 1 # 1000.
Proof.
  pose proof wheel2_after_50 as [H50 H50'].
  pose proof wheel2_after_156 as H156.
  pose proof wheel2_after_157 as [H157 H157'].
  split; [exact wheel1_target |].
  split; [exact wheel2_y |].
  split; [exact wheel2_velocity |].
  split; [| split].
  - rewrite Qabs_flip, Qabs_pos by lra. lra.
  - rewrite Qabs_flip, Qabs_pos by lra. lra.
  - rewrite Qabs_flip, Qabs_pos by lra. lra.
Qed.

(** ** The clamp *)

Lemma clamp_lower (t hi : Q) : 0 <= Qmax 0 (Qmin t hi).
Proof. apply Q.le_max_l. Qed.

Lemma clamp_upper (t hi : Q) : 0 <= hi -> Qmax 0 (Qmin t hi) <= hi.
Proof.
  intros Hhi. apply Q.max_lub; [exact Hhi | apply Q.le_min_r].
Qed.

Lemma clamp_upper_any (t hi : Q) : Qmax 0 (Qmin t hi) <= Qmax 0 hi.
Proof.
  apply Q.max_le_compat_l. apply Q.le_min_r.
Qed.

(** ** What each listener touches *)

Lemma wheel_loaded (d : Q) (m : Z) (s : stateT) :
  isLoaded s = true ->
  target (scroll (wheel d m s)) =
  Qmax 0 (Qmin (target (scroll s) + (if (m =? 1)%Z then d * 40 else d))
               (limit (scroll s))).
Proof.
  intros H. unfold wheel. rewrite H. reflexivity.
Qed.

Lemma touchmove_loaded (c : Q) (s : stateT) :
  isLoaded s = true ->
  target (scroll (touchmove c s)) =
  Qmax 0 (Qmin (target (scroll s) + (touchY s - c) * 2.5) (limit (scroll s))).
Proof.
  intros H. unfold touchmove. rewrite H. reflexivity.
Qed.

(** The [switch] gives every state the same amount. *)
Lemma keySwitch_amount (l : layout) (k : string) (s : stateT) :
  fst (keySwitch l k s) = keyAmount l k.
Proof. unfold keyAmount, keySwitch. listener. Qed.

(** A key with a non-zero amount is none of Home and End, so its jump
    starts from the old target. *)
Lemma keySwitch_jump (l : layout) (k : string) (s : stateT) :
  Qeq_bool (keyAmount l k) 0 = false ->
  keySwitch l k s = (keyAmount l k, s).
Proof.
  unfold keyAmount, keySwitch. intros H.
  repeat match goal with
         | |- context [if ?b then _ else _] => destruct b
         end;
    try reflexivity; discriminate H.
Qed.

Lemma keydown_jump (l : layout) (k : string) (s : stateT) :
  isLoaded s = true ->
  Qeq_bool (keyAmount l k) 0 = false ->
  target (scroll (fst (keydown l k s))) =
    Qmax 0 (Qmin (target (scroll s) + keyAmount l k) (limit (scroll s))) /\
  snd (keydown l k s) = true.
Proof.
  intros H Ha. unfold keydown.
  rewrite H, (keySwitch_jump l k s Ha). cbn [negb]. rewrite Ha.
  split; reflexivity.
Qed.

Lemma keydown_home (l : layout) (s : stateT) :
  isLoaded s = true ->
  keydown l "Home" s = (with_scroll (set_target 0) s, false).
Proof.
  intros H. unfold keydown. rewrite H. reflexivity.
Qed.

Lemma keydown_end (l : layout) (s : stateT) :
  isLoaded s = true ->
  keydown l "End" s =
  (with_scroll (fun sc => set_target (limit sc) sc) s, false).
Proof.
  intros H. unfold keydown. rewrite H. reflexivity.
Qed.

Lemma keydown_limit (l : layout) (k : string) (s : stateT) :
  limit (scroll (fst (keydown l k s))) = limit (scroll s).
Proof. unfold keydown, keySwitch. listener. Qed.

Lemma keydown_progress (l : layout) (k : string) (s : stateT) :
  __GLOBAL_PROGRESS (fst (keydown l k s)) = __GLOBAL_PROGRESS s.
Proof. unfold keydown, keySwitch. listener. Qed.

Lemma frame_or_input_keepsLimit (e : event) :
  isFrame e || isInput e = true -> keepsLimit e = true.
Proof. destruct e; try reflexivity; discriminate. Qed.

(** Only a resize writes [limit]. *)
Lemma step_limit (s : stateT) (e : event) :
  keepsLimit e = true -> limit (scroll (step s e)) = limit (scroll s).
Proof.
  destruct e; cbn [step keepsLimit]; intros H; try discriminate H.
  - unfold wheel. listener.
  - apply keydown_limit.
  - reflexivity.
  - unfold touchmove. listener.
  - apply frame_limit.
  - reflexivity.
Qed.

(** Only a frame writes the progress bridge. *)
Lemma step_progress (s : stateT) (e : event) :
  isFrame e = false -> __GLOBAL_PROGRESS (step s e) = __GLOBAL_PROGRESS s.
Proof.
  destruct e; cbn [step isFrame]; intros H; try discriminate H.
  - unfold wheel. listener.
  - apply keydown_progress.
  - reflexivity.
  - unfold touchmove. listener.
  - reflexivity.
  - reflexivity.
Qed.

(** Invariants of runs. *)
Lemma run_invariant (P : stateT -> Prop) (ok : event -> bool) :
  (forall s e, ok e = true -> P s -> P (step s e)) ->
  forall es s, forallb ok es = true -> P s -> P (run s es).
Proof.
  intros Hstep es. induction es as [| e es IH]; intros s Hok HP.
  - exact HP.
  - cbn [forallb] in Hok. apply andb_prop in Hok as [He Hes].
    cbn [run fold_left]. apply (IH (step s e) Hes).
    apply Hstep; assumption.
Qed.

Lemma run_snoc (s : stateT) (es : list event) (e : event) :
  run s (es ++ [e]) = step (run s es) e.
Proof. unfold run. rewrite fold_left_app. reflexivity. Qed.

(** ** Progress *)

Lemma frame_progressInRange (s : stateT) :
  progressInRange s -> progressInRange (fluidScrollRender s).
Proof.
  unfold progressInRange. intros H.
  destruct (Qlt_le_dec 0 (limit (scroll s))) as [Hpos | Hneg].
  - rewrite (frame_progress_pos s Hpos). split.
    + apply Q.le_max_l.
    + apply Q.max_lub; [lra | apply Q.le_min_l].
  - rewrite (frame_progress_nonpos s Hneg). exact H.
Qed.

Lemma step_progressInRange (s : stateT) (e : event) :
  progressInRange s -> progressInRange (step s e).
Proof.
  intros H. destruct (isFrame e) eqn:Hf.
  - destruct e; try discriminate Hf. apply frame_progressInRange, H.
  - unfold progressInRange. rewrite (step_progress s e Hf). exact H.
Qed.

Lemma step_progressZeroWithoutRoom (s : stateT) (e : event) :
  keepsLimit e = true ->
  progressZeroWithoutRoom s -> progressZeroWithoutRoom (step s e).
Proof.
  unfold progressZeroWithoutRoom. intros Hk H.
  rewrite (step_limit s e Hk). intros Hl.
  destruct (isFrame e) eqn:Hf.
  - destruct e; try discriminate Hf. cbn [step].
    rewrite (frame_progress_nonpos s Hl). exact (H Hl).
  - rewrite (step_progress s e Hf). exact (H Hl).
Qed.

Lemma frame_progressZeroWithoutRoom (s : stateT) :
  progressZeroWithoutRoom s -> progressZeroWithoutRoom (fluidScrollRender s).
Proof.
  unfold progressZeroWithoutRoom. rewrite frame_limit. intros H Hl.
  rewrite (frame_progress_nonpos s Hl). exact (H Hl).
Qed.

(** Both hold when [initSmoothScroll] returns. *)
Lemma init_progressInRange (l : layout) :
  progressInRange (initSmoothScroll l state).
Proof.
  apply frame_progressInRange. unfold progressInRange. cbn. lra.
Qed.

Lemma init_progressZeroWithoutRoom (l : layout) :
  progressZeroWithoutRoom (initSmoothScroll l state).
Proof.
  apply frame_progressZeroWithoutRoom. intros _. reflexivity.
Qed.

(** C3.  Started from the boot state, the progress bridge stays in
    [[0, 1]] whatever events arrive; and along frames and input updates
    (every event but a resize) it is [0] whenever [limit <= 0]. *)
Theorem C3_progress_bounds (l : layout) (es : list event) :
  let s := run (initSmoothScroll l state) es in
  0 <= __GLOBAL_PROGRESS s <= 1 /\
  (forallb keepsLimit es = true ->
   limit (scroll s) <= 0 -> __GLOBAL_PROGRESS s == 0).
Proof.
  cbn zeta. split.
  - apply (run_invariant progressInRange (fun _ => true)).
    + intros s e _. apply step_progressInRange.
    + apply forallb_forall. reflexivity.
    + apply init_progressInRange.
  - intros Hes.
    apply (run_invariant progressZeroWithoutRoom keepsLimit).
    + apply step_progressZeroWithoutRoom.
    + exact Hes.
    + apply init_progressZeroWithoutRoom.
Qed.

(** C3 at work: content shorter than the viewport, boot, a wheel
    notch, a frame, End. *)
Lemma C3_progress_bounds_witness :
  let es := [WorldBooted; Wheel 500 0; Frame; KeyDown shortLayout "End"] in
  let s := run (initSmoothScroll shortLayout state) es in
  limit (scroll s) <= 0 /\ 0 <= __GLOBAL_PROGRESS s <= 1 /\
  __GLOBAL_PROGRESS s == 0.
Proof.
  cbn zeta.
  pose proof (C3_progress_bounds shortLayout
    [WorldBooted; Wheel 500 0; Frame; KeyDown shortLayout "End"]) as [H1 H2].
  assert (Hl : limit (scroll (run (initSmoothScroll shortLayout state)
    [WorldBooted; Wheel 500 0; Frame; KeyDown shortLayout "End"])) <= 0).
  { vm_compute. discriminate. }
  split; [exact Hl |].
  split; [exact H1 |].
  apply H2; [reflexivity | exact Hl].
Defined.

(** Beyond the claim: a resize that leaves no room to scroll does not
    reset the bridge, which keeps the value of the last frame that had
    room. *)
Lemma progress_stale_after_resize :
  let s := run (loadedAt 500 1000) [Frame; Resize shortLayout; Frame] in
  limit (scroll s) < 0 /\ __GLOBAL_PROGRESS s == 1 # 2.
Proof. cbn zeta. split; vm_compute; reflexivity. Qed.

(** ** Convergence in exact arithmetic

    What the iteration does when no rounding takes place.  On the
    doubles the engine computes with, only the facts further down
    (section "Frames and rounding") are claimed. *)

Section Convergence.

Variable s : stateT.
Hypothesis ease_range : 0 < ease (scroll s) <= 1.

Let e := ease (scroll s).

(** The error keeps its sign. *)
Lemma frames_err_nonneg (n : nat) : 0 <= err s -> 0 <= err (frames n s).
Proof.
  intros H. rewrite frames_err.
  apply Qmult_le_0_compat; [apply decay_nonneg; lra | exact H].
Qed.

Lemma frames_err_nonpos (n : nat) : err s <= 0 -> err (frames n s) <= 0.
Proof.
  intros H. rewrite frames_err.
  assert (Hd : 0 <= decay (1 - ease (scroll s)) n)
    by (apply decay_nonneg; lra).
  nra.
Qed.

(** The error never grows. *)
Lemma frames_err_shrinks (n : nat) :
  Qabs (err (frames (S n) s)) <= Qabs (err (frames n s)).
Proof.
  rewrite frames_S, frame_err, frames_ease, Qabs_Qmult.
  rewrite (Qabs_pos (1 - ease (scroll s))) by lra.
  pose proof (Qabs_nonneg (err (frames n s))) as Ha.
  nra.
Qed.

(** After [n] frames the error is at most [|err s| / (1 + n * ease)]. *)
Lemma frames_err_bound (n : nat) :
  Qabs (err (frames n s)) * (1 + inject_Z (Z.of_nat n) * e) <= Qabs (err s).
Proof.
  rewrite frames_err, Qabs_Qmult.
  assert (Hd : 0 <= decay (1 - ease (scroll s)) n)
    by (apply decay_nonneg; lra).
  rewrite (Qabs_pos _ Hd).
  pose proof (decay_bound e n ease_range) as Hb. fold e.
  pose proof (Qabs_nonneg (err s)) as Ha.
  set (d := decay (1 - e) n) in *.
  set (k := 1 + inject_Z (Z.of_nat n) * e) in *.
  set (a := Qabs (err s)) in *.
  assert (Heq : d * a * k == d * k * a) by ring.
  rewrite Heq. nra.
Qed.

(** Any tolerance is met from some frame on. *)
Lemma frames_converge (eps : Q) :
  0 < eps ->
  exists N : nat, forall n : nat, (N <= n)%nat ->
    Qabs (err (frames n s)) < eps.
Proof.
  intros Heps.
  assert (Hee : 0 < e * eps) by (unfold e; nra).
  destruct (Qarchimedean (Qabs (err s) / (e * eps))) as [p Hp].
  exists (Pos.to_nat p). intros n Hn.
  pose proof (frames_err_bound n) as Hb.
  pose proof (Qabs_nonneg (err (frames n s))) as Hx.
  set (x := Qabs (err (frames n s))) in *.
  set (a := Qabs (err s)) in *.
  assert (Hk : inject_Z (Z.pos p) <= inject_Z (Z.of_nat n)).
  { rewrite <- Zle_Qle. lia. }
  change (Z.pos p # 1) with (inject_Z (Z.pos p)) in Hp.
  set (k := inject_Z (Z.of_nat n)) in *.
  set (q := inject_Z (Z.pos p)) in *.
  assert (Ha : a < q * (e * eps)).
  { assert (Hne : ~ e * eps == 0) by lra.
    assert (Hd : a == a / (e * eps) * (e * eps)).
    { unfold Qdiv. rewrite <- Qmult_assoc, (Qmult_comm (/ _)).
      rewrite Qmult_inv_r by exact Hne. ring. }
    rewrite Hd. apply Qmult_lt_compat_r; assumption. }
  assert (Hq : q * (e * eps) <= k * (e * eps)) by nra.
  destruct (Qlt_le_dec x eps) as [Hlt | Hge]; [exact Hlt | exfalso].
  assert (H1 : eps * (1 + k * e) <= x * (1 + k * e)).
  { assert (0 <= k).
    { apply Qle_trans with q; [| exact Hk].
      unfold q. change 0 with (inject_Z 0). rewrite <- Zle_Qle. lia. }
    assert (0 <= 1 + k * e) by (unfold e in *; nra).
    nra. }
  assert (H2 : eps * (1 + k * e) == eps + k * (e * eps)) by ring.
  lra.
Qed.

End Convergence.

(** ** Frame conditions *)

(** C9.  A frame writes [scroll.y], [scroll.velocity] and the two
    bridges, and nothing else: [target], [limit], [ease], [isLoaded]
    and [touchY] are what they were. *)
Theorem C9_frame_writes_position_velocity_bridges (s : stateT) :
  let s' := fluidScrollRender s in
  s' = {| isLoaded := isLoaded s;
          scroll := {| y := y (scroll s');
                       target := target (scroll s);
                       limit := limit (scroll s);
                       ease := ease (scroll s);
                       velocity := velocity (scroll s') |};
          __SCROLL_MOMENTUM := __SCROLL_MOMENTUM s';
          __GLOBAL_PROGRESS := __GLOBAL_PROGRESS s';
          touchY := touchY s |}.
Proof.
  cbn zeta. unfold fluidScrollRender.
  destruct (Qlt_le_dec _ _); reflexivity.
Qed.

(** ** Keyboard *)

(** C10.  Once loaded, an "End" keydown assigns [target := limit] as it
    is, leaves every other field alone and does not call
    [preventDefault]; with a negative [limit] the target is negative. *)
Theorem C10_end_assigns_limit_unclamped (l : layout) (s : stateT) :
  isLoaded s = true ->
  fst (keydown l "End" s) =
    with_scroll (fun sc => set_target (limit sc) sc) s /\
  target (scroll (fst (keydown l "End" s))) = limit (scroll s) /\
  snd (keydown l "End" s) = false /\
  (limit (scroll s) < 0 -> target (scroll (fst (keydown l "End" s))) < 0).
Proof.
  intros H. rewrite (keydown_end l s H). cbn [fst snd].
  split; [reflexivity |].
  split; [reflexivity |].
  split; [reflexivity |].
  intros Hl. exact Hl.
Qed.

(** C10 at work on scenario 3: the target ends up at -100. *)
Lemma C10_end_assigns_limit_unclamped_witness :
  isLoaded short0 = true /\
  limit (scroll short0) < 0 /\
  snd (keydown shortLayout "End" short0) = false /\
  target (scroll (fst (keydown shortLayout "End" short0))) < 0.
Proof.
  assert (Hl : limit (scroll short0) < 0) by (vm_compute; reflexivity).
  pose proof (C10_end_assigns_limit_unclamped shortLayout short0 eq_refl)
    as (_ & _ & Hp & Hneg).
  split; [reflexivity |].
  split; [exact Hl |].
  split; [exact Hp |].
  exact (Hneg Hl).
Defined.

Lemma Qeq_bool_false (a b : Q) : ~ a == b -> Qeq_bool a b = false.
Proof.
  intros H. destruct (Qeq_bool a b) eqn:E; [| reflexivity].
  apply Qeq_bool_eq in E. contradiction.
Qed.

(** The four keys with an amount, and what the listener does with them. *)
Lemma keyAmount_table (l : layout) :
  keyAmount l "ArrowDown" = 100 /\
  keyAmount l "ArrowUp" = - (100) /\
  keyAmount l "PageDown" = innerHeight l * 0.8 /\
  keyAmount l " " = innerHeight l * 0.8 /\
  keyAmount l "PageUp" = - innerHeight l * 0.8 /\
  keyAmount l "Home" = 0 /\
  keyAmount l "End" = 0.
Proof. repeat split. Qed.

Lemma keydown_arrows (l : layout) (s : stateT) :
  isLoaded s = true ->
  (target (scroll (fst (keydown l "ArrowDown" s))) =
     Qmax 0 (Qmin (target (scroll s) + 100) (limit (scroll s))) /\
   snd (keydown l "ArrowDown" s) = true) /\
  (target (scroll (fst (keydown l "ArrowUp" s))) =
     Qmax 0 (Qmin (target (scroll s) + - (100)) (limit (scroll s))) /\
   snd (keydown l "ArrowUp" s) = true).
Proof.
  intros H. split.
  - exact (keydown_jump l "ArrowDown" s H eq_refl).
  - exact (keydown_jump l "ArrowUp" s H eq_refl).
Qed.

Lemma keydown_pages (l : layout) (s : stateT) :
  isLoaded s = true -> ~ innerHeight l == 0 ->
  (target (scroll (fst (keydown l "PageDown" s))) =
     Qmax 0 (Qmin (target (scroll s) + innerHeight l * 0.8) (limit (scroll s))) /\
   snd (keydown l "PageDown" s) = true) /\
  (target (scroll (fst (keydown l " " s))) =
     Qmax 0 (Qmin (target (scroll s) + innerHeight l * 0.8) (limit (scroll s))) /\
   snd (keydown l " " s) = true) /\
  (target (scroll (fst (keydown l "PageUp" s))) =
     Qmax 0 (Qmin (target (scroll s) + - innerHeight l * 0.8) (limit (scroll s))) /\
   snd (keydown l "PageUp" s) = true).
Proof.
  intros H Hh.
  assert (Hp : Qeq_bool (innerHeight l * 0.8) 0 = false).
  { apply Qeq_bool_false. intros Hz. apply Hh. lra. }
  assert (Hm : Qeq_bool (- innerHeight l * 0.8) 0 = false).
  { apply Qeq_bool_false. intros Hz. apply Hh. lra. }
  split; [| split].
  - exact (keydown_jump l "PageDown" s H Hp).
  - exact (keydown_jump l " " s H Hp).
  - exact (keydown_jump l "PageUp" s H Hm).
Qed.

(** C8, at the input where the code departs from it: "Home" and "End"
    are handled (the target is assigned) yet [preventDefault] is not
    called, while the same state and layout with "ArrowDown" does call
    it. *)
Theorem C8_home_end_skip_preventDefault :
  let l := {| contentHeight := 1800; innerHeight := 800 |} in
  let s := loadedAt 500 1000 in
  target (scroll (fst (keydown l "Home" s))) == 0 /\
  snd (keydown l "Home" s) = false /\
  target (scroll (fst (keydown l "End" s))) == 1000 /\
  snd (keydown l "End" s) = false /\
  target (scroll (fst (keydown l "ArrowDown" s))) == 600 /\
  snd (keydown l "ArrowDown" s) = true.
Proof. cbn zeta. repeat split; vm_compute; reflexivity. Qed.

(** ** Bounds and clamping *)

Lemma calculateBounds_limit (l : layout) (s : stateT) :
  limit (scroll (calculateBounds l s)) = contentHeight l - innerHeight l.
Proof. reflexivity. Qed.

Lemma calculateBounds_target (l : layout) (s : stateT) :
  target (scroll (calculateBounds l s)) = target (scroll s).
Proof. reflexivity. Qed.

(** Scenario 2: the limit has dropped to 300 under a target of 800. *)
Lemma shrink1_limit : limit (scroll shrink1) == 300.
Proof. vm_compute. reflexivity. Qed.

Lemma shrink1_target : target (scroll shrink1) == 800.
Proof. vm_compute. reflexivity. Qed.

(** C2, as stated, fails: the frame that follows the shrink neither
    recomputes [limit] nor clamps; [target] is still 800, above the new
    limit of 300. *)
Lemma C2_next_frame_keeps_target_above_limit :
  limit (scroll shrink1) == 300 /\
  ~ target (scroll shrink2) == 300 /\
  ~ target (scroll shrink2) <= limit (scroll shrink2).
Proof.
  split; [exact shrink1_limit |].
  split; vm_compute; intros H; [discriminate H | apply H; reflexivity].
Qed.

(** C2 (amended).  [limit] is written by [calculateBounds] (at
    initialisation, on resize, on a ScrollTrigger refresh) as content
    height minus viewport height, and a frame leaves both [limit] and
    [target] as they are, clamping nothing.  When [limit] drops from
    1000 to 300 under a target of 800, the next frame keeps the target
    at 800; the target comes down to the limit with the next wheel,
    touch-move or non-zero keyboard jump handled while loaded. *)
Theorem C2_bounds_on_resize_clamp_on_input :
  (forall l s, limit (scroll (calculateBounds l s)) =
               contentHeight l - innerHeight l) /\
  (forall s, limit (scroll (fluidScrollRender s)) = limit (scroll s) /\
             target (scroll (fluidScrollRender s)) = target (scroll s)) /\
  (limit (scroll shrink2) == 300 /\ target (scroll shrink2) == 800 /\
   y (scroll shrink2) == 800) /\
  (forall d m, target (scroll (wheel d m shrink2)) <= 300) /\
  (forall c, target (scroll (touchmove c shrink2)) <= 300) /\
  (forall l k, Qeq_bool (keyAmount l k) 0 = false ->
               target (scroll (fst (keydown l k shrink2))) <= 300) /\
  target (scroll (wheel 0 0 shrink2)) == 300.
Proof.
  split; [exact calculateBounds_limit |].
  split; [intros s; split; [apply frame_limit | apply frame_target] |].
  split; [repeat split; vm_compute; reflexivity |].
  assert (Hl : limit (scroll shrink2) == 300) by (vm_compute; reflexivity).
  assert (Hc : forall t, Qmax 0 (Qmin t (limit (scroll shrink2))) <= 300).
  { intros t. apply Qle_trans with (limit (scroll shrink2)).
    - apply clamp_upper. rewrite Hl. lra.
    - rewrite Hl. lra. }
  split; [| split; [| split]].
  - intros d m. rewrite wheel_loaded by reflexivity. apply Hc.
  - intros c. rewrite touchmove_loaded by reflexivity. apply Hc.
  - intros l k Hk.
    destruct (keydown_jump l k shrink2 eq_refl Hk) as [Ht _].
    rewrite Ht. apply Hc.
  - vm_compute. reflexivity.
Qed.

(** C2 at work: PageDown after the shrink. *)
Lemma C2_bounds_on_resize_clamp_on_input_witness :
  Qeq_bool (keyAmount shrunkLayout "PageDown") 0 = false /\
  target (scroll (fst (keydown shrunkLayout "PageDown" shrink2))) <= 300.
Proof.
  split; [reflexivity |].
  apply (proj1 (proj2 (proj2 (proj2 (proj2 (proj2
    C2_bounds_on_resize_clamp_on_input)))))).
  reflexivity.
Defined.

(** C6, as stated, fails: with content shorter than the viewport the
    limit is negative, the clamp yields 0, and 0 is above the limit. *)
Lemma C6_negative_limit_target_above_limit :
  let s := wheel 500 0 short0 in
  isLoaded short0 = true /\
  limit (scroll s) == - (100) /\
  target (scroll s) == 0 /\
  ~ (0 <= target (scroll s) <= limit (scroll s)).
Proof.
  cbn zeta.
  split; [reflexivity |].
  split; [vm_compute; reflexivity |].
  split; [vm_compute; reflexivity |].
  intros [_ H]. vm_compute in H. apply H. reflexivity.
Qed.

(** Whatever the limit, a clamping update leaves the target between 0
    and the larger of 0 and the limit. *)
Lemma step_clamps_any_limit (s : stateT) (e : event) :
  isLoaded s = true -> clampsTarget e = true ->
  0 <= target (scroll (step s e)) <= Qmax 0 (limit (scroll s)).
Proof.
  intros H He.
  destruct e; cbn [step clampsTarget] in *; try discriminate He.
  - rewrite wheel_loaded by exact H.
    split; [apply clamp_lower | apply clamp_upper_any].
  - apply negb_true_iff in He.
    destruct (keydown_jump l key s H He) as [Ht _]. rewrite Ht.
    split; [apply clamp_lower | apply clamp_upper_any].
  - rewrite touchmove_loaded by exact H.
    split; [apply clamp_lower | apply clamp_upper_any].
Qed.

(** One update is enough to bring the target into range, wherever it
    was: a loaded listener that writes the target leaves it in
    [[0, limit]] when [limit] is not negative. *)
Lemma step_clamps (s : stateT) (e : event) :
  isLoaded s = true -> writesTarget e = true ->
  0 <= limit (scroll s) ->
  0 <= target (scroll (step s e)) <= limit (scroll s).
Proof.
  intros H He Hl.
  destruct e; cbn [step writesTarget clampsTarget] in *;
    try discriminate He.
  - rewrite wheel_loaded by exact H.
    split; [apply clamp_lower | apply clamp_upper, Hl].
  - destruct (Qeq_bool (keyAmount l key) 0) eqn:Ha.
    + cbn [negb orb] in He. apply orb_prop in He as [Hk | Hk];
        apply String.eqb_eq in Hk; subst key.
      * rewrite (keydown_home l s H). cbn. lra.
      * rewrite (keydown_end l s H). cbn. lra.
    + destruct (keydown_jump l key s H Ha) as [Ht _]. rewrite Ht.
      split; [apply clamp_lower | apply clamp_upper, Hl].
  - rewrite touchmove_loaded by exact H.
    split; [apply clamp_lower | apply clamp_upper, Hl].
Qed.

(** C6 (amended).  While the limit is not negative, every wheel event,
    touch-move, keydown with a non-zero amount, Home and End handled by
    a loaded engine leaves [0 <= target <= limit], whatever the target
    was before; so after the limit shrinks, the first such update brings
    the target back under it.  This holds at the end of every run of
    events, resizes included. *)
Theorem C6_target_clamped_after_update
  (s0 : stateT) (es : list event) (e : event) :
  let s := run s0 es in
  let s' := run s0 (es ++ [e]) in
  isLoaded s = true -> writesTarget e = true ->
  0 <= limit (scroll s) ->
  limit (scroll s') = limit (scroll s) /\
  0 <= target (scroll s') <= limit (scroll s').
Proof.
  cbn zeta. intros H He Hl. rewrite run_snoc.
  assert (Hk : keepsLimit e = true) by (destruct e; try reflexivity; discriminate He).
  rewrite (step_limit _ e Hk).
  split; [reflexivity |].
  apply step_clamps; assumption.
Qed.

(** C6 at work: the limit shrinks to 300 under a target of 800, a frame
    passes, and the next wheel event brings the target into range. *)
Lemma C6_target_clamped_after_update_witness :
  let s0 := loadedAt 800 1000 in
  let es := [Resize shrunkLayout; Frame] in
  target (scroll (run s0 es)) == 800 /\
  limit (scroll (run s0 es)) == 300 /\
  0 <= target (scroll (run s0 (es ++ [Wheel 40 0]))) <=
       limit (scroll (run s0 (es ++ [Wheel 40 0]))).
Proof.
  cbn zeta.
  split; [vm_compute; reflexivity |].
  split; [vm_compute; reflexivity |].
  apply (C6_target_clamped_after_update (loadedAt 800 1000)
           [Resize shrunkLayout; Frame] (Wheel 40 0)).
  - reflexivity.
  - reflexivity.
  - vm_compute. discriminate.
Defined.

(** * Around the engine: properties *)

(** ** Tools *)

Lemma Qabs_cases (x : Q) :
  (0 <= x /\ Qabs x == x) \/ (x <= 0 /\ Qabs x == - x).
Proof.
  destruct (Qlt_le_dec x 0) as [H | H].
  - right. split; [lra | apply Qabs_neg; lra].
  - left. split; [exact H | apply Qabs_pos; exact H].
Qed.

(** Replace every [Qmax], [Qmin] and [Qabs] by a variable that carries
    its defining cases, so that linear arithmetic can finish. *)
Ltac name_max a b :=
  let m := fresh "m" in
  pose proof (Q.max_spec a b); set (m := Qmax a b) in *; clearbody m.
Ltac name_min a b :=
  let m := fresh "m" in
  pose proof (Q.min_spec a b); set (m := Qmin a b) in *; clearbody m.
Ltac name_abs a :=
  let m := fresh "m" in
  pose proof (Qabs_cases a); set (m := Qabs a) in *; clearbody m.
Ltac name_minmax :=
  repeat match goal with
         | |- context [Qmin ?a ?b] => name_min a b
         | |- context [Qmax ?a ?b] => name_max a b
         | |- context [Qabs ?a] => name_abs a
         | _ : context [Qmin ?a ?b] |- _ => name_min a b
         | _ : context [Qmax ?a ?b] |- _ => name_max a b
         | _ : context [Qabs ?a] |- _ => name_abs a
         end.

(** Split a conjunction of bounds and implications into its parts, and
    close each part by linear arithmetic over the named terms. *)
Ltac split_bounds :=
  repeat match goal with
         | |- _ /\ _ => split
         | |- _ <-> _ => split
         | |- _ -> _ => intro
         end.
Ltac bounds := split_bounds; name_minmax; lra.

Lemma Qlt_bool_iff (a b : Q) : Qlt_bool a b = true <-> a < b.
Proof.
  unfold Qlt_bool. rewrite negb_true_iff. split.
  - intros H. apply Qnot_le_lt. intros Hle.
    apply Qle_bool_iff in Hle. congruence.
  - intros H. destruct (Qle_bool b a) eqn:E; [| reflexivity].
    apply Qle_bool_iff in E. lra.
Qed.

Lemma orZero_eq (x : Q) : orZero x == x.
Proof.
  unfold orZero. destruct (Qeq_bool x 0) eqn:E; [| reflexivity].
  apply Qeq_bool_eq in E. symmetry. exact E.
Qed.

(** ** What the events leave alone *)

Lemma step_ease (s : stateT) (e : event) :
  ease (scroll (step s e)) = ease (scroll s).
Proof.
  destruct e; cbn [step].
  - unfold wheel. listener.
  - unfold keydown, keySwitch. listener.
  - reflexivity.
  - unfold touchmove. listener.
  - apply frame_ease.
  - reflexivity.
  - reflexivity.
Qed.

Lemma step_y (s : stateT) (e : event) :
  isFrame e = false -> y (scroll (step s e)) = y (scroll s).
Proof.
  destruct e; cbn [step isFrame]; intros H; try discriminate H.
  - unfold wheel. listener.
  - unfold keydown, keySwitch. listener.
  - reflexivity.
  - unfold touchmove. listener.
  - reflexivity.
  - reflexivity.
Qed.

Lemma step_isLoaded (s : stateT) (e : event) :
  isLoaded s = true -> isLoaded (step s e) = true.
Proof.
  intros H. destruct e; cbn [step].
  - unfold wheel. rewrite H. exact H.
  - unfold keydown, keySwitch. rewrite H. cbn [negb].
    repeat match goal with
           | |- context [if ?b then _ else _] => destruct b
           end; exact H.
  - exact H.
  - unfold touchmove. rewrite H. exact H.
  - rewrite frame_isLoaded. exact H.
  - exact H.
  - reflexivity.
Qed.

(** An event that is no loaded write of the target leaves it alone. *)
Lemma step_target_kept (s : stateT) (e : event) :
  isLoaded s = false \/ writesTarget e = false ->
  target (scroll (step s e)) = target (scroll s).
Proof.
  intros H. destruct e; cbn [step].
  - unfold wheel. destruct (isLoaded s); [| reflexivity].
    destruct H as [H | H]; discriminate H.
  - unfold keydown. destruct (isLoaded s); [| reflexivity].
    destruct H as [H | H]; [discriminate H |].
    cbn [writesTarget clampsTarget] in H.
    apply orb_false_elim in H as [H He].
    apply orb_false_elim in H as [Ha Hh].
    apply negb_false_iff in Ha. cbn [negb].
    unfold keyAmount in Ha. revert Ha. unfold keySwitch.
    rewrite Hh, He.
    repeat match goal with
           | |- context [(?k =? ?c)%string] => destruct (k =? c)%string
           end; cbn [orb fst snd]; intros Ha; rewrite Ha; reflexivity.
  - reflexivity.
  - unfold touchmove. destruct (isLoaded s); [| reflexivity].
    destruct H as [H | H]; discriminate H.
  - apply frame_target.
  - reflexivity.
  - reflexivity.
Qed.

(** A frame moves the position to a point between where it was and the
    target. *)
Lemma frame_between (s : stateT) (lo hi : Q) :
  0 < ease (scroll s) <= 1 ->
  lo <= y (scroll s) <= hi -> lo <= target (scroll s) <= hi ->
  lo <= y (scroll (fluidScrollRender s)) <= hi.
Proof.
  intros He Hy Ht. rewrite frame_y.
  set (p := y (scroll s)) in *. set (t := target (scroll s)) in *.
  set (e := ease (scroll s)) in *.
  split; nra.
Qed.

(** At rest, frames change neither position nor velocity. *)
Lemma frames_rest (n : nat) (s : stateT) :
  err s == 0 ->
  y (scroll (frames n s)) == y (scroll s) /\
  velocity (scroll (frames (S n) s)) == 0.
Proof.
  intros H.
  assert (He : forall k, err (frames k s) == 0).
  { intros k. rewrite frames_err, H. ring. }
  split.
  - pose proof (He n) as Hn. unfold err in Hn, H.
    rewrite frames_target in Hn. lra.
  - rewrite frames_S, frame_velocity.
    pose proof (He n) as Hn. unfold err in Hn.
    set (t := target (scroll (frames n s))) in *.
    set (p := y (scroll (frames n s))) in *.
    set (e := ease (scroll (frames n s))) in *.
    assert (Hz : t - (p + (t - p) * e) == (1 - e) * (t - p)) by ring.
    rewrite Hz, Hn. ring.
Qed.

(** ** Frames and rounding

    JavaScript numbers are binary64 doubles.  The facts of this section
    are those of the frame that do not depend on the arithmetic being
    exact, proved on the model, next to what the rounded update does on
    the doubles themselves ([Float64]). *)

Lemma frames_between (n : nat) (s : stateT) (lo hi : Q) :
  0 < ease (scroll s) <= 1 ->
  lo <= y (scroll s) <= hi -> lo <= target (scroll s) <= hi ->
  lo <= y (scroll (frames n s)) <= hi.
Proof.
  intros He Hy Ht. induction n as [| n IH]; [exact Hy |].
  rewrite frames_S. apply frame_between.
  - rewrite frames_ease. exact He.
  - exact IH.
  - rewrite frames_target. exact Ht.
Qed.

(** A frame moves the position towards the target or not at all. *)
Lemma frame_towards (s : stateT) :
  0 < ease (scroll s) ->
  (y (scroll s) <= target (scroll s) ->
   y (scroll s) <= y (scroll (fluidScrollRender s))) /\
  (target (scroll s) <= y (scroll s) ->
   y (scroll (fluidScrollRender s)) <= y (scroll s)).
Proof.
  intros He. rewrite frame_y.
  set (p := y (scroll s)). set (t := target (scroll s)).
  set (e := ease (scroll s)) in *.
  split; intros H; nra.
Qed.

(** On doubles the run of scenario 1 stops moving after 417 frames. *)
Lemma float64_reaches_stall : Float64.lerps 417 500 0 = Float64.stall.
Proof. vm_compute. reflexivity. Qed.

Lemma float64_stall_fixed : Float64.lerp 500 Float64.stall = Float64.stall.
Proof. vm_compute. reflexivity. Qed.

Lemma float64_stall_forever (n : nat) :
  Float64.lerps n 500 Float64.stall = Float64.stall.
Proof.
  induction n as [| n IH]; [reflexivity |].
  cbn [Float64.lerps]. rewrite float64_stall_fixed. exact IH.
Qed.

Lemma float64_lerps_add (a b : nat) (t y : float) :
  Float64.lerps (a + b) t y = Float64.lerps b t (Float64.lerps a t y).
Proof.
  revert y. induction a as [| a IH]; intros y; [reflexivity |].
  cbn [Nat.add Float64.lerps]. apply IH.
Qed.

(** The stall is between 3.4e-13 and 3.5e-13 short of 500. *)
Lemma float64_stall_gap :
  PrimFloat.ltb Float64.gapLow (500 - Float64.stall) = true /\
  PrimFloat.ltb (500 - Float64.stall) Float64.gapHigh = true.
Proof. split; vm_compute; reflexivity. Qed.

(** Up to the stall the position rises frame by frame without passing
    500, and is always more than 3.4e-13 short of it. *)
Lemma float64_rise :
  forallb Float64.rises (seq 0 417) = true.
Proof. vm_compute. reflexivity. Qed.

Lemma float64_never_within (n : nat) :
  PrimFloat.ltb Float64.gapLow (500 - Float64.lerps n 500 0) = true.
Proof.
  destruct (Nat.lt_ge_cases n 417) as [Hlt | Hge].
  - pose proof float64_rise as H. rewrite forallb_forall in H.
    specialize (H n). rewrite in_seq in H.
    assert (Hn : (0 <= n < 0 + 417)%nat) by lia.
    apply H in Hn. unfold Float64.rises in Hn.
    apply andb_prop in Hn as [_ Hn]. exact Hn.
  - replace n with (417 + (n - 417))%nat by lia.
    rewrite float64_lerps_add, float64_reaches_stall, float64_stall_forever.
    exact (proj1 float64_stall_gap).
Qed.

(** With [ease = 1] a step on doubles can land beyond the target. *)
Lemma float64_overshoot_at_ease_one :
  PrimFloat.ltb Float64.nearZero Float64.nearTarget = true /\
  PrimFloat.ltb Float64.nearTarget
    (Float64.step 1 Float64.nearTarget Float64.nearZero) = true.
Proof. split; vm_compute; reflexivity. Qed.




(** The velocity of the second frame of scenario 1 on doubles,
    423.19999999999999, next to [1 - ease] times the error before that
    frame, 423.20000000000005. *)
Lemma float64_second_frame_velocity :
  let y1 := Float64.lerp 500 0 in
  Float64.vel 500 y1 = 0x1.a733333333333p+8%float /\
  ((1 - Float64.ease) * (500 - y1))%float = 0x1.a733333333334p+8%float.
Proof. cbn zeta. split; vm_compute; reflexivity. Qed.

(** C7, as stated, fails on the doubles the engine computes with: the
    velocity after a frame is not [1 - ease] times the error before it.
    On the second frame of scenario 1 the two differ in the last digit,
    and at the stalled position the velocity is the whole error, which
    is not 0. *)
Lemma C7_binary64_velocity_not_scaled_error :
  PrimFloat.eqb (Float64.vel 500 (Float64.lerp 500 0))
    ((1 - Float64.ease) * (500 - Float64.lerp 500 0)) = false /\
  PrimFloat.eqb (Float64.vel 500 Float64.stall) (500 - Float64.stall) = true /\
  PrimFloat.ltb 0 (500 - Float64.stall) = true /\
  PrimFloat.eqb (Float64.vel 500 Float64.stall)
    ((1 - Float64.ease) * (500 - Float64.stall)) = false.
Proof. repeat split; vm_compute; reflexivity. Qed.

(** C7 (amended).  After a frame, [velocity] is [target - position]
    taken after the position update, and the published momentum is that
    velocity.  It is positive exactly when the target is above the new
    position, negative exactly when below, 0 exactly when they
    coincide; and at rest (target equal to position before the frame)
    the frame moves nothing and the velocity is 0. *)
Theorem C7_velocity_is_remaining_distance (s : stateT) :
  let s' := fluidScrollRender s in
  velocity (scroll s') = target (scroll s') - y (scroll s') /\
  __SCROLL_MOMENTUM s' = velocity (scroll s') /\
  (0 < velocity (scroll s') <-> y (scroll s') < target (scroll s')) /\
  (velocity (scroll s') < 0 <-> target (scroll s') < y (scroll s')) /\
  (velocity (scroll s') == 0 <-> target (scroll s') == y (scroll s')) /\
  (target (scroll s) == y (scroll s) ->
   velocity (scroll s') == 0 /\ y (scroll s') == y (scroll s)).
Proof.
  cbn zeta.
  rewrite frame_momentum, frame_velocity, frame_target, frame_y.
  set (t := target (scroll s)). set (p := y (scroll s)).
  set (e := ease (scroll s)).
  split; [reflexivity |].
  split; [reflexivity |].
  split; [split; intros H; lra |].
  split; [split; intros H; lra |].
  split; [split; intros H; lra |].
  intros Hrest.
  assert (Hz : t - p == 0) by lra.
  split.
  - assert (Hv : t - (p + (t - p) * e) == (1 - e) * (t - p)) by ring.
    rewrite Hv, Hz. ring.
  - rewrite Hz. ring.
Qed.

(** C7 at work: scenario 1 before the wheel event is at rest. *)
Lemma C7_velocity_is_remaining_distance_witness :
  target (scroll wheel0) == y (scroll wheel0) /\
  velocity (scroll (fluidScrollRender wheel0)) == 0 /\
  y (scroll (fluidScrollRender wheel0)) == y (scroll wheel0).
Proof.
  assert (Hr : target (scroll wheel0) == y (scroll wheel0)) by reflexivity.
  split; [exact Hr |].
  exact (proj2 (proj2 (proj2 (proj2 (proj2
           (C7_velocity_is_remaining_distance wheel0))))) Hr).
Defined.

(** ** The scroller proxy *)

(** X1.  Writing [v] through the proxy puts the engine at rest at [v]:
    whatever the state and the value (no clamp is applied), the proxy
    reads back [v] after any number of frames, the target is [v] and the
    velocity is 0 from the first frame on. *)
Theorem scrollTop_write_then_frames (s : stateT) (v : Q) (n : nat) :
  let s' := fst (scrollTop (Some v) s) in
  snd (scrollTop (Some v) s) = v /\
  snd (scrollTop None (frames n s')) == v /\
  target (scroll (frames n s')) = v /\
  limit (scroll (frames n s')) = limit (scroll s) /\
  velocity (scroll (frames (S n) s')) == 0.
Proof.
  cbn zeta.
  set (s' := fst (scrollTop (Some v) s)).
  assert (Hrest : err s' == 0) by (unfold err; cbn; ring).
  destruct (frames_rest n s' Hrest) as [Hy Hv].
  split; [reflexivity |].
  split; [exact Hy |].
  split; [rewrite frames_target; reflexivity |].
  split; [rewrite frames_limit; reflexivity |].
  exact Hv.
Qed.

(** ** Range of position and target *)

Lemma step_range (L : Q) (s : stateT) (e : event) :
  0 <= L -> keepsLimit e = true ->
  (0 < ease (scroll s) <= 1 /\ limit (scroll s) = L /\
   0 <= target (scroll s) <= L /\ 0 <= y (scroll s) <= L) ->
  (0 < ease (scroll (step s e)) <= 1 /\ limit (scroll (step s e)) = L /\
   0 <= target (scroll (step s e)) <= L /\ 0 <= y (scroll (step s e)) <= L).
Proof.
  intros HL Hk (He & Hl & Ht & Hy).
  rewrite step_ease, (step_limit s e Hk).
  split; [exact He |]. split; [exact Hl |].
  destruct (isFrame e) eqn:Hf.
  - destruct e; try discriminate Hf. cbn [step].
    rewrite frame_target. split; [exact Ht |].
    apply frame_between; assumption.
  - rewrite (step_y s e Hf). split; [| exact Hy].
    destruct (isLoaded s) eqn:Hload.
    + destruct (writesTarget e) eqn:Hw.
      * rewrite <- Hl. apply step_clamps; [exact Hload | exact Hw |].
        rewrite Hl. exact HL.
      * rewrite step_target_kept by (right; exact Hw). exact Ht.
    + rewrite step_target_kept by (left; exact Hload). exact Ht.
Qed.

(** X2.  When the content is at least as tall as the viewport and no
    resize intervenes, every run from the boot state keeps both the
    target and the position within [[0, limit]]. *)
Theorem position_and_target_within_limit (l : layout) (es : list event) :
  0 <= contentHeight l - innerHeight l ->
  forallb keepsLimit es = true ->
  let s := run (initSmoothScroll l state) es in
  limit (scroll s) = contentHeight l - innerHeight l /\
  0 <= target (scroll s) <= limit (scroll s) /\
  0 <= y (scroll s) <= limit (scroll s).
Proof.
  cbn zeta. intros HL Hes.
  set (L := contentHeight l - innerHeight l) in *.
  assert (H : 0 < ease (scroll (run (initSmoothScroll l state) es)) <= 1 /\
              limit (scroll (run (initSmoothScroll l state) es)) = L /\
              0 <= target (scroll (run (initSmoothScroll l state) es)) <= L /\
              0 <= y (scroll (run (initSmoothScroll l state) es)) <= L).
  { apply (run_invariant
             (fun s => 0 < ease (scroll s) <= 1 /\ limit (scroll s) = L /\
                       0 <= target (scroll s) <= L /\ 0 <= y (scroll s) <= L)
             keepsLimit).
    - intros s e Hk. apply step_range; assumption.
    - exact Hes.
    - change (initSmoothScroll l state) with (step (assignLimit l state) Frame).
      apply step_range; [exact HL | reflexivity |].
      cbn. fold L. repeat split; lra. }
  destruct H as (_ & Hl & Ht & Hy).
  rewrite Hl. split; [reflexivity |]. split; assumption.
Qed.

(** X2 at work: a page with 1000 pixels of room, booted, wheeled far
    past the end, two frames, a touch drag, End. *)
Lemma position_and_target_within_limit_witness :
  let l := {| contentHeight := 1800; innerHeight := 800 |} in
  let es := [WorldBooted; Wheel 5000 0; Frame; Frame; TouchStart 300;
             TouchMove 900; KeyDown l "End"; Frame] in
  let s := run (initSmoothScroll l state) es in
  0 <= y (scroll s) <= limit (scroll s).
Proof.
  cbn zeta.
  apply (position_and_target_within_limit
           {| contentHeight := 1800; innerHeight := 800 |}).
  - vm_compute. discriminate.
  - reflexivity.
Defined.

(** ** Before the world is booted *)

Lemma step_unloaded (s : stateT) (e : event) :
  isLoaded s = false ->
  match e with WorldBooted => True | _ => isLoaded (step s e) = false end.
Proof.
  intros H. destruct e; cbn [step]; try exact I.
  - unfold wheel. rewrite H. exact H.
  - unfold keydown. rewrite H. exact H.
  - exact H.
  - unfold touchmove. rewrite H. exact H.
  - rewrite frame_isLoaded. exact H.
  - exact H.
Qed.

Lemma frame_at_origin (s : stateT) :
  target (scroll s) = 0 -> y (scroll s) == 0 -> __GLOBAL_PROGRESS s == 0 ->
  y (scroll (fluidScrollRender s)) == 0 /\
  velocity (scroll (fluidScrollRender s)) == 0 /\
  __SCROLL_MOMENTUM (fluidScrollRender s) == 0 /\
  __GLOBAL_PROGRESS (fluidScrollRender s) == 0.
Proof.
  intros Ht Hy Hp.
  assert (Hy' : y (scroll (fluidScrollRender s)) == 0).
  { rewrite frame_y, Ht. set (p := y (scroll s)) in *.
    set (e := ease (scroll s)). rewrite Hy. ring. }
  assert (Hv : velocity (scroll (fluidScrollRender s)) == 0).
  { rewrite frame_velocity, Ht. set (p := y (scroll s)) in *.
    set (e := ease (scroll s)). rewrite Hy. ring. }
  split; [exact Hy' |]. split; [exact Hv |].
  split; [rewrite frame_momentum; exact Hv |].
  destruct (Qlt_le_dec 0 (limit (scroll s))) as [Hpos | Hneg].
  - rewrite (frame_progress_pos s Hpos).
    assert (Hq : y (scroll (fluidScrollRender s)) / limit (scroll s) == 0).
    { rewrite Hy'. unfold Qdiv. ring. }
    set (q := y (scroll (fluidScrollRender s)) / limit (scroll s)) in *.
    name_minmax. lra.
  - rewrite (frame_progress_nonpos s Hneg). exact Hp.
Qed.

(** X3.  Until [state.isLoaded] is set, nothing the user does scrolls:
    after any wheel, key, touch, resize and frame events the target is
    still 0, position, velocity and both bridges are 0, and no keydown
    has its default action prevented. *)
Theorem input_ignored_until_loaded (l : layout) (es : list event) :
  forallb (fun e => match e with WorldBooted => false | _ => true end) es
    = true ->
  let s := run (initSmoothScroll l state) es in
  isLoaded s = false /\
  target (scroll s) = 0 /\
  y (scroll s) == 0 /\
  velocity (scroll s) == 0 /\
  __SCROLL_MOMENTUM s == 0 /\
  __GLOBAL_PROGRESS s == 0 /\
  (forall l' k, keydown l' k s = (s, false)).
Proof.
  cbn zeta. intros Hes.
  set (P := fun s : stateT =>
              isLoaded s = false /\ target (scroll s) = 0 /\
              y (scroll s) == 0 /\ velocity (scroll s) == 0 /\
              __SCROLL_MOMENTUM s == 0 /\ __GLOBAL_PROGRESS s == 0).
  assert (Hframe : forall s, P s -> P (fluidScrollRender s)).
  { intros s (Hl & Ht & Hy & _ & _ & Hp).
    destruct (frame_at_origin s Ht Hy Hp) as (Hy' & Hv' & Hm' & Hp').
    unfold P. rewrite frame_isLoaded, frame_target.
    repeat (split; [assumption |]). assumption. }
  assert (H : P (run (initSmoothScroll l state) es)).
  { apply (run_invariant P
             (fun e => match e with WorldBooted => false | _ => true end)).
    - intros s e He HP.
      destruct e; try discriminate He; try (apply Hframe; exact HP);
        destruct HP as (Hl & Ht & Hy & Hv & Hm & Hp); unfold P; cbn [step].
      + unfold wheel. rewrite Hl. cbn [negb]. repeat split; assumption.
      + unfold keydown. rewrite Hl. cbn [negb fst]. repeat split; assumption.
      + repeat split; assumption.
      + unfold touchmove. rewrite Hl. cbn [negb]. repeat split; assumption.
      + repeat split; assumption.
    - exact Hes.
    - apply Hframe. unfold P. cbn. repeat split; reflexivity. }
  destruct H as (Hl & Ht & Hy & Hv & Hm & Hp).
  repeat (split; [assumption |]).
  intros l' k. unfold keydown. rewrite Hl. reflexivity.
Qed.

(** X3 at work: the visitor scrolls and types while the loader runs. *)
Lemma input_ignored_until_loaded_witness :
  let l := {| contentHeight := 1800; innerHeight := 800 |} in
  let s := run (initSmoothScroll l state)
               [Wheel 500 0; Frame; KeyDown l "End"; TouchStart 10;
                TouchMove 400; Resize shrunkLayout; Frame] in
  target (scroll s) = 0 /\ y (scroll s) == 0.
Proof.
  cbn zeta.
  pose proof (input_ignored_until_loaded
    {| contentHeight := 1800; innerHeight := 800 |}
    [Wheel 500 0; Frame;
     KeyDown {| contentHeight := 1800; innerHeight := 800 |} "End";
     TouchStart 10; TouchMove 400; Resize shrunkLayout; Frame] eq_refl)
    as (_ & Ht & Hy & _).
  split; [exact Ht | exact Hy].
Defined.

(** ** How updates compose *)

Lemma wheel_state (d : Q) (s : stateT) :
  isLoaded s = true ->
  isLoaded (wheel d 0 s) = true /\
  limit (scroll (wheel d 0 s)) = limit (scroll s).
Proof.
  intros H. split.
  - exact (step_isLoaded s (Wheel d 0) H).
  - exact (step_limit s (Wheel d 0) eq_refl).
Qed.

(** X4.  On a loaded engine a larger wheel delta never gives a smaller
    target; a delta that would take the target to 0 or below leaves it
    at 0, one that would take it to the limit or beyond leaves it at the
    limit.  What was cut is forgotten: wheeling [d >= 0] past the limit
    and then [d] back lands at [limit - d] (or 0), whatever the start.
    Line mode is pixel mode with forty times the delta, and page mode
    ([deltaMode = 2]) is taken as pixels. *)
Theorem wheel_saturates_and_forgets_overscroll (s : stateT) (d d' : Q) :
  isLoaded s = true ->
  (d <= d' ->
   target (scroll (wheel d 0 s)) <= target (scroll (wheel d' 0 s))) /\
  (target (scroll s) + d <= 0 -> target (scroll (wheel d 0 s)) == 0) /\
  (0 <= limit (scroll s) <= target (scroll s) + d ->
   target (scroll (wheel d 0 s)) == limit (scroll s)) /\
  (0 <= d -> 0 <= limit (scroll s) <= target (scroll s) + d ->
   target (scroll (wheel (- d) 0 (wheel d 0 s))) ==
   Qmax 0 (limit (scroll s) - d)) /\
  wheel d 1 s = wheel (d * 40) 0 s /\
  wheel d 2 s = wheel d 0 s.
Proof.
  intros H.
  destruct (wheel_state d s H) as [Hl1 Hlim1].
  rewrite (wheel_loaded (- d) 0 _ Hl1), Hlim1.
  rewrite (wheel_loaded d 0 s H), (wheel_loaded d' 0 s H). cbn [Z.eqb].
  set (t := target (scroll s)) in *. set (L := limit (scroll s)) in *.
  split; [bounds |]. split; [bounds |]. split; [bounds |].
  split; [bounds |].
  split; reflexivity.
Qed.

(** X4 at work from rest at 0 with a limit of 1000: 1500 forth and back
    lands at 0, where it started only because the start was 0; from the
    same state 300 is below 400. *)
Lemma wheel_saturates_and_forgets_overscroll_witness :
  target (scroll (wheel 300 0 wheel0)) <= target (scroll (wheel 400 0 wheel0)) /\
  target (scroll (wheel (- (1500)) 0 (wheel 1500 0 wheel0))) ==
  Qmax 0 (limit (scroll wheel0) - 1500).
Proof.
  pose proof (wheel_saturates_and_forgets_overscroll wheel0 300 400 eq_refl)
    as (Hmono & _).
  pose proof (wheel_saturates_and_forgets_overscroll wheel0 1500 0 eq_refl)
    as (_ & _ & _ & Hback & _).
  split.
  - apply Hmono. vm_compute. discriminate.
  - apply Hback.
    + vm_compute. discriminate.
    + split; vm_compute; discriminate.
Defined.

Lemma keydown_state (l : layout) (k : string) (s : stateT) :
  isLoaded s = true ->
  isLoaded (fst (keydown l k s)) = true /\
  limit (scroll (fst (keydown l k s))) = limit (scroll s).
Proof.
  intros H. split.
  - exact (step_isLoaded s (KeyDown l k) H).
  - apply keydown_limit.
Qed.

(** X5.  On a loaded engine whose target is within [[0, limit]], the
    down keys never lower the target and never take it past the limit,
    the up keys never raise it and never take it below 0; at the limit
    ArrowDown leaves the target there, at 0 ArrowUp leaves it there.
    The arrows always prevent the default, the page keys do on a
    viewport of non-zero height, and Space is PageDown. *)
Theorem scroll_keys_move_one_way (l : layout) (s : stateT) :
  isLoaded s = true -> 0 <= target (scroll s) <= limit (scroll s) ->
  (target (scroll s) <= target (scroll (fst (keydown l "ArrowDown" s)))
     <= limit (scroll s) /\
   snd (keydown l "ArrowDown" s) = true) /\
  (0 <= target (scroll (fst (keydown l "ArrowUp" s))) <= target (scroll s) /\
   snd (keydown l "ArrowUp" s) = true) /\
  (target (scroll s) == limit (scroll s) ->
   target (scroll (fst (keydown l "ArrowDown" s))) == limit (scroll s)) /\
  (target (scroll s) == 0 ->
   target (scroll (fst (keydown l "ArrowUp" s))) == 0) /\
  (0 < innerHeight l ->
   (target (scroll s) <= target (scroll (fst (keydown l "PageDown" s)))
      <= limit (scroll s) /\
    snd (keydown l "PageDown" s) = true) /\
   (0 <= target (scroll (fst (keydown l "PageUp" s))) <= target (scroll s) /\
    snd (keydown l "PageUp" s) = true)) /\
  keydown l " " s = keydown l "PageDown" s.
Proof.
  intros H Ht.
  destruct (keydown_jump l "ArrowDown" s H eq_refl) as [Hd Hpd].
  destruct (keydown_jump l "ArrowUp" s H eq_refl) as [Hu Hpu].
  change (keyAmount l "ArrowDown") with 100 in Hd.
  change (keyAmount l "ArrowUp") with (- (100)) in Hu.
  rewrite Hd, Hu.
  set (t := target (scroll s)) in *. set (L := limit (scroll s)) in *.
  split; [split; [bounds | exact Hpd] |].
  split; [split; [bounds | exact Hpu] |].
  split; [bounds |]. split; [bounds |].
  split; [| reflexivity].
  intros Hh.
  assert (Hp : Qeq_bool (keyAmount l "PageDown") 0 = false).
  { apply Qeq_bool_false. change (keyAmount l "PageDown")
      with (innerHeight l * 0.8). lra. }
  assert (Hm : Qeq_bool (keyAmount l "PageUp") 0 = false).
  { apply Qeq_bool_false. change (keyAmount l "PageUp")
      with (- innerHeight l * 0.8). lra. }
  destruct (keydown_jump l "PageDown" s H Hp) as [Hpgd Hppd].
  destruct (keydown_jump l "PageUp" s H Hm) as [Hpgu Hppu].
  change (keyAmount l "PageDown") with (innerHeight l * 0.8) in Hpgd.
  change (keyAmount l "PageUp") with (- innerHeight l * 0.8) in Hpgu.
  rewrite Hpgd, Hpgu. fold t L.
  set (h := innerHeight l) in *.
  split; [split; [bounds | exact Hppd] | split; [bounds | exact Hppu]].
Qed.

(** X5 at work at the end of the page: at rest at 1000 with a limit of
    1000, ArrowDown stays and PageUp does not go up. *)
Lemma scroll_keys_move_one_way_witness :
  let l := {| contentHeight := 1800; innerHeight := 800 |} in
  let s := loadedAt 1000 1000 in
  target (scroll (fst (keydown l "ArrowDown" s))) == limit (scroll s) /\
  target (scroll (fst (keydown l "PageUp" s))) <= target (scroll s).
Proof.
  cbn zeta.
  assert (Ht : 0 <= target (scroll (loadedAt 1000 1000))
               <= limit (scroll (loadedAt 1000 1000))).
  { split; vm_compute; discriminate. }
  pose proof (scroll_keys_move_one_way
    {| contentHeight := 1800; innerHeight := 800 |} (loadedAt 1000 1000)
    eq_refl Ht) as (_ & _ & Hend & _ & Hpage & _).
  split.
  - apply Hend. reflexivity.
  - assert (Hh : 0 < innerHeight {| contentHeight := 1800; innerHeight := 800 |})
      by (vm_compute; reflexivity).
    exact (proj2 (proj1 (proj2 (Hpage Hh)))).
Defined.

(** ** Touch *)

Lemma touchmove_state (c : Q) (s : stateT) :
  isLoaded s = true ->
  isLoaded (touchmove c s) = true /\
  limit (scroll (touchmove c s)) = limit (scroll s) /\
  touchY (touchmove c s) = c.
Proof.
  intros H. split; [| split].
  - exact (step_isLoaded s (TouchMove c) H).
  - exact (step_limit s (TouchMove c) eq_refl).
  - unfold touchmove. rewrite H. reflexivity.
Qed.

(** X6.  A loaded touch-move records the point it was given, so a
    finger that reports the same point twice scrolls no further.  With
    the target within [[0, limit]], moving the finger up the screen
    never lowers the target nor takes it past the limit, moving it down
    never raises the target nor takes it below 0; and while the clamp
    does not cut, the target moves by 2.5 times the finger's travel. *)
Theorem touch_drag_follows_finger (s : stateT) (c : Q) :
  isLoaded s = true ->
  touchY (touchmove c s) = c /\
  target (scroll (touchmove c (touchmove c s))) ==
  target (scroll (touchmove c s)) /\
  (0 <= target (scroll s) <= limit (scroll s) ->
   (c <= touchY s ->
    target (scroll s) <= target (scroll (touchmove c s)) <= limit (scroll s)) /\
   (touchY s <= c ->
    0 <= target (scroll (touchmove c s)) <= target (scroll s))) /\
  (0 <= target (scroll s) + (touchY s - c) * 2.5 <= limit (scroll s) ->
   target (scroll (touchmove c s)) ==
   target (scroll s) + (touchY s - c) * 2.5).
Proof.
  intros H.
  destruct (touchmove_state c s H) as (Hl1 & Hlim1 & Hy1).
  split; [exact Hy1 |].
  rewrite (touchmove_loaded c _ Hl1), Hlim1, Hy1.
  rewrite (touchmove_loaded c s H).
  set (t := target (scroll s)) in *. set (L := limit (scroll s)) in *.
  set (f := touchY s) in *.
  split; [bounds |]. split; [bounds |]. bounds.
Qed.

(** X6 at work: from rest at 0 with a limit of 1000, the finger goes
    from 600 up to 500. *)
Lemma touch_drag_follows_finger_witness :
  let s := touchstart 600 wheel0 in
  target (scroll (touchmove 500 s)) == target (scroll s) + (600 - 500) * 2.5 /\
  target (scroll s) <= target (scroll (touchmove 500 s)).
Proof.
  cbn zeta.
  pose proof (touch_drag_follows_finger (touchstart 600 wheel0) 500 eq_refl)
    as (_ & _ & Hdir & Hfree).
  split.
  - apply Hfree. split; vm_compute; discriminate.
  - assert (Hr : 0 <= target (scroll (touchstart 600 wheel0))
                 <= limit (scroll (touchstart 600 wheel0)))
      by (split; vm_compute; discriminate).
    assert (Hc : 500 <= touchY (touchstart 600 wheel0))
      by (vm_compute; discriminate).
    exact (proj1 (proj1 (Hdir Hr) Hc)).
Defined.

(** ** What a frame writes to the page *)

(** X7.  The content is shifted by minus the new position on every
    frame.  The HUD is written only while [limit > 0]; then the progress
    frame is shifted by a percentage in [[-100, 0]] and the velocity bar
    is between 0 and 100 pixels high, 100 exactly when the velocity is
    at least 50 in size.  With [limit <= 0] the HUD is left as it was. *)
Theorem frame_page_writes (s : stateT) :
  let d := fluidScrollRenderDom s in
  let s' := fluidScrollRender s in
  contentTranslateY d = - y (scroll s') /\
  (0 < limit (scroll s) ->
   exists p h,
     progressTranslateY d = Some p /\ - (100) <= p <= 0 /\
     velocityBarHeight d = Some h /\ 0 <= h <= 100 /\
     (h == 100 <-> 50 <= Qabs (velocity (scroll s'))) /\
     fingerprintData d =
       Some (Qabs (velocity (scroll s')), __GLOBAL_PROGRESS s')) /\
  (limit (scroll s) <= 0 ->
   progressTranslateY d = None /\ velocityBarHeight d = None /\
   fingerprintData d = None).
Proof.
  cbn zeta. unfold fluidScrollRenderDom.
  rewrite frame_limit.
  destruct (Qlt_le_dec 0 (limit (scroll s))) as [Hpos | Hneg];
    cbn [contentTranslateY progressTranslateY velocityBarHeight
         fingerprintData].
  - assert (Hp' : 0 <= __GLOBAL_PROGRESS (fluidScrollRender s) <= 1).
    { rewrite (frame_progress_pos s Hpos). name_minmax. lra. }
    split; [reflexivity |]. split.
    + intros _. eexists. eexists.
      split; [reflexivity |]. split; [lra |].
      split; [reflexivity |].
      set (v := velocity (scroll (fluidScrollRender s))).
      split; [name_minmax; lra |].
      split; [| reflexivity].
      name_minmax. lra.
    + intros H. lra.
  - split; [reflexivity |]. split.
    + intros H. lra.
    + intros _. repeat split.
Qed.

(** X7 at work on the first frame of scenario 1. *)
Lemma frame_page_writes_witness :
  exists p h,
    progressTranslateY (fluidScrollRenderDom wheel1) = Some p /\
    - (100) <= p <= 0 /\
    velocityBarHeight (fluidScrollRenderDom wheel1) = Some h /\
    0 <= h <= 100.
Proof.
  assert (Hl : 0 < limit (scroll wheel1)) by (vm_compute; reflexivity).
  destruct (proj1 (proj2 (frame_page_writes wheel1)) Hl)
    as (p & h & H1 & H2 & H3 & H4 & _).
  exists p, h. repeat (split; [assumption |]). assumption.
Defined.

(** ** The dilation scene *)



(** ** The loader *)

Lemma jump_range (r : Q) : isRandom r -> 1 <= Loader.jump r <= 15.
Proof.
  intros [H0 H1]. unfold Loader.jump.
  assert (Hlo : (0 <= Qfloor (r * 15))%Z).
  { rewrite <- (Qfloor_Z 0). apply Qfloor_resp_le. change (inject_Z 0) with 0.
    lra. }
  assert (Hhi : (Qfloor (r * 15) <= 14)%Z).
  { assert (H : (Qfloor (r * 15) < 15)%Z); [| lia].
    rewrite Zlt_Qlt.
    apply Qle_lt_trans with (r * 15); [apply Qfloor_le |].
    change (inject_Z 15) with 15. lra. }
  rewrite Zle_Qle in Hlo, Hhi.
  change (inject_Z 0) with 0 in Hlo. change (inject_Z 14) with 14 in Hhi.
  lra.
Qed.

Lemma loader_ticks_snoc (rs : list Q) (r : Q) (st : Loader.t) :
  Loader.ticks (rs ++ [r]) st = Loader.tick r (Loader.ticks rs st).
Proof. unfold Loader.ticks. rewrite fold_left_app. reflexivity. Qed.

(** While the interval runs, [n] ticks have brought the percentage to
    somewhere between [n] and [15 n], short of 100; once it is cleared
    the percentage is 100, which took at least [100 / 15] ticks. *)
Lemma loader_invariant (rs : list Q) :
  Forall isRandom rs ->
  let st := Loader.ticks rs Loader.init in
  let n := inject_Z (Z.of_nat (length rs)) in
  (Loader.interval st = true /\ Loader.finishTimeout st = false /\
   n <= Loader.pct st <= 15 * n /\ Loader.pct st < 100) \/
  (Loader.interval st = false /\ Loader.finishTimeout st = true /\
   Loader.pct st = 100 /\ Loader.shown st = Some 100 /\ 100 <= 15 * n).
Proof.
  cbn zeta. induction rs as [| r rs IH] using rev_ind; intros Hrs.
  - left. change (Loader.ticks [] Loader.init) with Loader.init.
    change (inject_Z (Z.of_nat (length (@nil Q)))) with 0.
    cbn [Loader.init Loader.interval Loader.finishTimeout Loader.pct].
    split; [reflexivity |]. split; [reflexivity |]. split; lra.
  - apply Forall_app in Hrs as [Hrs Hr].
    apply Forall_inv in Hr. pose proof (jump_range r Hr) as Hj.
    rewrite loader_ticks_snoc, length_app, Nat2Z.inj_add, inject_Z_plus.
    change (inject_Z (Z.of_nat (length [r]))) with 1.
    set (n := inject_Z (Z.of_nat (length rs))) in *.
    set (st := Loader.ticks rs Loader.init) in *.
    destruct (IH Hrs) as [(Hi & Hf & Hp & Hlt) | (Hi & Hf & Hp & Hs & Hn)].
    + unfold Loader.tick. rewrite Hi. cbn [negb].
      destruct (Qle_bool 100 (Loader.pct st + Loader.jump r)) eqn:E.
      * right. apply Qle_bool_iff in E.
        cbn [Loader.interval Loader.finishTimeout Loader.pct Loader.shown].
        repeat (split; [reflexivity |]). lra.
      * left. cbn [Loader.interval Loader.finishTimeout Loader.pct].
        assert (Hn : ~ 100 <= Loader.pct st + Loader.jump r).
        { intros Hc. apply Qle_bool_iff in Hc. congruence. }
        split; [reflexivity |]. split; [exact Hf |]. split; lra.
    + right. unfold Loader.tick. rewrite Hi. cbn [negb].
      fold st. rewrite Hi.
      repeat (split; [assumption || reflexivity |]). lra.
Qed.

(** X9.  Whatever [Math.random()] returns, the loader's percentage
    never decreases from tick to tick and never exceeds 100; the
    interval is still running after 6 ticks and is cleared, with 100
    shown and the finish callback queued, after at most 100. *)
Theorem loader_finishes_between_7_and_100_ticks (rs : list Q) (r : Q) :
  Forall isRandom rs -> isRandom r ->
  let st := Loader.ticks rs Loader.init in
  Loader.pct st <= 100 /\
  Loader.pct st <= Loader.pct (Loader.tick r st) /\
  ((length rs <= 6)%nat -> Loader.interval st = true) /\
  ((100 <= length rs)%nat ->
   Loader.interval st = false /\ Loader.pct st = 100 /\
   Loader.shown st = Some 100 /\ Loader.finishTimeout st = true).
Proof.
  cbn zeta. intros Hrs Hr.
  pose proof (loader_invariant rs Hrs) as Hinv. cbn zeta in Hinv.
  pose proof (jump_range r Hr) as Hj.
  set (st := Loader.ticks rs Loader.init) in *.
  set (n := inject_Z (Z.of_nat (length rs))) in *.
  split; [| split; [| split]].
  - destruct Hinv as [(_ & _ & _ & Hlt) | (_ & _ & Hp & _)].
    + lra.
    + rewrite Hp. lra.
  - unfold Loader.tick.
    destruct Hinv as [(Hi & _ & _ & Hlt) | (Hi & _ & Hp & _)];
      rewrite Hi; cbn [negb].
    + destruct (Qle_bool 100 (Loader.pct st + Loader.jump r));
        cbn [Loader.pct]; lra.
    + lra.
  - intros H6.
    destruct Hinv as [(Hi & _) | (_ & _ & _ & _ & Hn)]; [exact Hi |].
    exfalso.
    assert (Hk : n <= inject_Z 6) by (unfold n; rewrite <- Zle_Qle; lia).
    change (inject_Z 6) with 6 in Hk. lra.
  - intros H100.
    destruct Hinv as [(_ & _ & Hb & Hlt) | (Hi & Hf & Hp & Hs & _)].
    + exfalso.
      assert (Hk : inject_Z 100 <= n) by (unfold n; rewrite <- Zle_Qle; lia).
      change (inject_Z 100) with 100 in Hk. lra.
    + repeat split; assumption.
Qed.

(** X9 at work: seven draws just under 1 finish the loader. *)
Lemma loader_finishes_between_7_and_100_ticks_witness :
  let rs := [0.99; 0.99; 0.99; 0.99; 0.99; 0.99] in
  Loader.interval (Loader.ticks rs Loader.init) = true /\
  Loader.interval (Loader.tick 0.99 (Loader.ticks rs Loader.init)) = false.
Proof.
  cbn zeta.
  assert (Hr : isRandom 0.99) by (split; vm_compute; [discriminate | reflexivity]).
  assert (Hrs : Forall isRandom [0.99; 0.99; 0.99; 0.99; 0.99; 0.99])
    by (repeat constructor; try discriminate).
  split.
  - apply (proj1 (proj2 (proj2
      (loader_finishes_between_7_and_100_ticks _ 0.99 Hrs Hr)))).
    cbn. lia.
  - reflexivity.
Defined.

(** ** Mute button and audio engine *)

Lemma toggles_before_boot (k : nat) (p : Audio.page) :
  Audio.actx (Audio.engine p) = false ->
  Audio.engine (Audio.clicks p (repeat Audio.AudioToggle k)) = Audio.engine p /\
  Audio.toggleClass (Audio.clicks p (repeat Audio.AudioToggle k)) =
    xorb (Audio.toggleClass p) (Nat.odd k).
Proof.
  revert p. induction k as [| k IH]; intros p H.
  - cbn. rewrite xorb_false_r. split; reflexivity.
  - cbn [repeat Audio.clicks fold_left].
    assert (He : Audio.engine (Audio.onClick p Audio.AudioToggle) =
                 Audio.engine p).
    { cbn. unfold Audio.toggleMute. rewrite H. reflexivity. }
    destruct (IH (Audio.onClick p Audio.AudioToggle)) as [IH1 IH2].
    { rewrite He. exact H. }
    unfold Audio.clicks in IH1, IH2. rewrite IH1, IH2, He.
    split; [reflexivity |].
    rewrite Nat.odd_succ, <- Nat.negb_odd. cbn [Audio.onClick Audio.toggleClass].
    destruct (Audio.toggleClass p), (Nat.odd k); reflexivity.
Qed.

Lemma toggles_after_boot (m : nat) (p : Audio.page) :
  Audio.actx (Audio.engine p) = true ->
  let p' := Audio.clicks p (repeat Audio.AudioToggle m) in
  Audio.actx (Audio.engine p') = true /\
  Audio.isMuted (Audio.engine p') =
    xorb (Audio.isMuted (Audio.engine p)) (Nat.odd m) /\
  Audio.toggleClass p' = xorb (Audio.toggleClass p) (Nat.odd m) /\
  (Audio.gainTarget (Audio.engine p) =
     Some (if Audio.isMuted (Audio.engine p) then 0 else 1) ->
   Audio.gainTarget (Audio.engine p') =
     Some (if Audio.isMuted (Audio.engine p') then 0 else 1)).
Proof.
  cbn zeta. revert p. induction m as [| m IH]; intros p H.
  - cbn. rewrite !xorb_false_r. repeat split; auto.
  - cbn [repeat Audio.clicks fold_left].
    set (q := Audio.onClick p Audio.AudioToggle).
    assert (Hq : Audio.actx (Audio.engine q) = true /\
                 Audio.isMuted (Audio.engine q) =
                   negb (Audio.isMuted (Audio.engine p)) /\
                 Audio.toggleClass q = negb (Audio.toggleClass p) /\
                 Audio.gainTarget (Audio.engine q) =
                   Some (if Audio.isMuted (Audio.engine q) then 0 else 1)).
    { unfold q. cbn. unfold Audio.toggleMute. rewrite H. cbn.
      repeat split; try exact H. }
    destruct Hq as (Hq1 & Hq2 & Hq3 & Hq4).
    destruct (IH q Hq1) as (I1 & I2 & I3 & I4).
    unfold Audio.clicks in I1, I2, I3, I4.
    split; [exact I1 |].
    rewrite I2, I3, Hq2, Hq3, Nat.odd_succ, <- Nat.negb_odd.
    split; [destruct (Audio.isMuted (Audio.engine p)), (Nat.odd m);
            reflexivity |].
    split; [destruct (Audio.toggleClass p), (Nat.odd m); reflexivity |].
    intros _. rewrite (I4 Hq4), I2, Hq2. reflexivity.
Qed.

(** X10.  The mute button flips its [muted] class on every click, but
    the engine only flips [isMuted] once booted.  After [k] clicks
    before entering and [m] after, the engine is muted exactly when [m]
    is odd and its gain heads for 0 or 1 accordingly, while the button's
    class has flipped [k + m] times: an odd number of early clicks
    leaves button and engine out of step for good. *)
Theorem mute_button_and_engine (b0 : bool) (k m : nat) :
  let p0 := {| Audio.engine := Audio.init; Audio.toggleClass := b0;
               Audio.audioUnlocked := false |} in
  let p := Audio.clicks p0 (repeat Audio.AudioToggle k ++ [Audio.EnterBtn]
                            ++ repeat Audio.AudioToggle m) in
  Audio.actx (Audio.engine p) = true /\
  Audio.isMuted (Audio.engine p) = Nat.odd m /\
  Audio.gainTarget (Audio.engine p) = Some (if Nat.odd m then 0 else 1) /\
  Audio.toggleClass p = xorb b0 (Nat.odd (k + m)) /\
  (xorb (Audio.toggleClass p) (Audio.isMuted (Audio.engine p)) =
   xorb b0 (Nat.odd k)).
Proof.
  cbn zeta.
  set (p0 := {| Audio.engine := Audio.init; Audio.toggleClass := b0;
                Audio.audioUnlocked := false |}).
  unfold Audio.clicks. rewrite !fold_left_app.
  fold (Audio.clicks p0 (repeat Audio.AudioToggle k)).
  destruct (toggles_before_boot k p0 eq_refl) as [He Hc].
  set (p1 := Audio.clicks p0 (repeat Audio.AudioToggle k)) in *.
  cbn [fold_left].
  set (p2 := Audio.onClick p1 Audio.EnterBtn).
  assert (H2 : Audio.actx (Audio.engine p2) = true /\
               Audio.isMuted (Audio.engine p2) = false /\
               Audio.gainTarget (Audio.engine p2) = Some 1 /\
               Audio.toggleClass p2 = xorb b0 (Nat.odd k)).
  { unfold p2. cbn [Audio.onClick Audio.engine Audio.toggleClass].
    rewrite He, Hc. repeat split. }
  destruct H2 as (Ha & Hm & Hg & Ht).
  fold (Audio.clicks p2 (repeat Audio.AudioToggle m)).
  destruct (toggles_after_boot m p2 Ha) as (I1 & I2 & I3 & I4).
  rewrite Hm in I2, I4. rewrite Ht in I3. cbn [xorb] in I2.
  split; [exact I1 |]. split; [exact I2 |].
  split; [rewrite (I4 Hg), I2; reflexivity |].
  rewrite I3, I2, Nat.odd_add.
  split; destruct b0, (Nat.odd k), (Nat.odd m); reflexivity.
Qed.

(** ** The shader's scroll uniforms *)

Lemma render_progress_range (s : stateT) (u : uniformsT) :
  progressInRange s -> 0 <= u_scrollProgress u <= 1 ->
  0 <= u_scrollProgress (renderScrollHooks s u) <= 1.
Proof.
  unfold progressInRange. intros Hp Hu. cbn [renderScrollHooks u_scrollProgress].
  rewrite orZero_eq.
  set (p := __GLOBAL_PROGRESS s) in *. set (x := u_scrollProgress u) in *.
  lra.
Qed.

(** X11.  However engine events and shader renders interleave from
    boot, the progress uniform handed to the shader stays in [[0, 1]];
    and a render never moves the velocity uniform further from 0 than
    the larger of its old size and the size of the published momentum. *)
Theorem shader_uniforms_bounded (l : layout) (ts : list tickT) :
  let w := worldRun (initSmoothScroll l state, uniforms) ts in
  0 <= u_scrollProgress (snd w) <= 1 /\
  Qabs (u_scrollVelocity (renderScrollHooks (fst w) (snd w))) <=
  Qmax (Qabs (u_scrollVelocity (snd w))) (Qabs (__SCROLL_MOMENTUM (fst w))).
Proof.
  cbn zeta. split.
  - assert (H : progressInRange
                  (fst (worldRun (initSmoothScroll l state, uniforms) ts)) /\
                0 <= u_scrollProgress
                  (snd (worldRun (initSmoothScroll l state, uniforms) ts)) <= 1).
    { unfold worldRun.
      assert (H0 : progressInRange (fst (initSmoothScroll l state, uniforms)) /\
                   0 <= u_scrollProgress
                          (snd (initSmoothScroll l state, uniforms)) <= 1).
      { split; [apply init_progressInRange | cbn; lra]. }
      revert H0. generalize (initSmoothScroll l state, uniforms).
      induction ts as [| t ts IH]; intros w Hw; [exact Hw |].
      cbn [fold_left]. apply IH. destruct Hw as [Hp Hu].
      destruct t; cbn [worldStep fst snd].
      - split; [apply step_progressInRange; exact Hp | exact Hu].
      - split; [exact Hp | apply render_progress_range; assumption]. }
    exact (proj2 H).
  - cbn [renderScrollHooks u_scrollVelocity].
    set (w := worldRun (initSmoothScroll l state, uniforms) ts).
    pose proof (orZero_eq (__SCROLL_MOMENTUM (fst w))) as Ho.
    set (o := orZero (__SCROLL_MOMENTUM (fst w))) in *.
    set (mo := __SCROLL_MOMENTUM (fst w)) in *.
    set (x := u_scrollVelocity (snd w)) in *.
    name_minmax. lra.
Qed.

(** ** Audio driven by the momentum *)

(** X12.  Once the audio context exists, the clock ticks with an
    intensity in [[0, 1]] and reschedules itself after a delay between
    80 and 1000 ms, equal to [1000 - 920 * intensity] (the floor at 80
    never has to cut): 1000 ms at rest, 80 ms from a momentum of 1500
    on, and never longer for a larger momentum.  Without a context
    nothing is scheduled. *)
Theorem clock_tick_interval (a : Audio.t) (s s2 : stateT) :
  (Audio.actx a = false -> Audio.scheduleClockTick a s = None) /\
  (Audio.actx a = true ->
   exists i d i2 d2,
     Audio.scheduleClockTick a s = Some (i, d) /\
     Audio.scheduleClockTick a s2 = Some (i2, d2) /\
     0 <= i <= 1 /\ 80 <= d <= 1000 /\ d == 1000 - 920 * i /\
     (__SCROLL_MOMENTUM s == 0 -> d == 1000) /\
     (1500 <= Qabs (__SCROLL_MOMENTUM s) -> d == 80) /\
     (Qabs (__SCROLL_MOMENTUM s) <= Qabs (__SCROLL_MOMENTUM s2) -> d2 <= d)).
Proof.
  split; intros Ha; unfold Audio.scheduleClockTick; rewrite Ha; cbn [negb].
  - reflexivity.
  - do 4 eexists. split; [reflexivity |]. split; [reflexivity |].
    unfold Audio.baseTickInterval.
    pose proof (orZero_eq (__SCROLL_MOMENTUM s)) as Ho.
    pose proof (orZero_eq (__SCROLL_MOMENTUM s2)) as Ho2.
    set (o := orZero (__SCROLL_MOMENTUM s)) in *.
    set (o2 := orZero (__SCROLL_MOMENTUM s2)) in *.
    set (v := __SCROLL_MOMENTUM s) in *.
    set (v2 := __SCROLL_MOMENTUM s2) in *.
    unfold Qdiv.
    assert (Hinv : / 1500 == 1 # 1500) by reflexivity.
    rewrite !Hinv.
    bounds.
Qed.

(** X12 at work with the momentum of scenario 1 after its first frame. *)
Lemma clock_tick_interval_witness :
  exists i d,
    Audio.scheduleClockTick (Audio.boot Audio.init) wheel2 = Some (i, d) /\
    80 <= d <= 1000.
Proof.
  destruct (proj2 (clock_tick_interval (Audio.boot Audio.init) wheel2 wheel2)
              eq_refl) as (i & d & _ & _ & H1 & _ & _ & H4 & _).
  exists i, d. split; assumption.
Defined.

(** X13.  Once the audio context exists, the low-pass filter is sent to
    a frequency between 500 and 22000 Hz: wide open at rest, 500 Hz
    from a momentum of 1000 on, and never higher for a larger
    momentum.  Without a context the filter is not touched. *)
Theorem lowpass_target_frequency (a : Audio.t) (s s2 : stateT) :
  (Audio.actx a = false -> Audio.modulateAudioByScroll a s = None) /\
  (Audio.actx a = true ->
   exists f f2,
     Audio.modulateAudioByScroll a s = Some f /\
     Audio.modulateAudioByScroll a s2 = Some f2 /\
     500 <= f <= 22000 /\
     (__SCROLL_MOMENTUM s == 0 -> f == 22000) /\
     (1000 <= Qabs (__SCROLL_MOMENTUM s) -> f == 500) /\
     (Qabs (__SCROLL_MOMENTUM s) <= Qabs (__SCROLL_MOMENTUM s2) -> f2 <= f)).
Proof.
  split; intros Ha; unfold Audio.modulateAudioByScroll; rewrite Ha; cbn [negb].
  - reflexivity.
  - do 2 eexists. split; [reflexivity |]. split; [reflexivity |].
    pose proof (orZero_eq (__SCROLL_MOMENTUM s)) as Ho.
    pose proof (orZero_eq (__SCROLL_MOMENTUM s2)) as Ho2.
    set (o := orZero (__SCROLL_MOMENTUM s)) in *.
    set (o2 := orZero (__SCROLL_MOMENTUM s2)) in *.
    set (v := __SCROLL_MOMENTUM s) in *.
    set (v2 := __SCROLL_MOMENTUM s2) in *.
    unfold Qdiv.
    assert (Hinv : / 1000 == 1 # 1000) by reflexivity.
    rewrite !Hinv.
    bounds.
Qed.

(** X13 at work with the momentum of scenario 1 after its first frame. *)
Lemma lowpass_target_frequency_witness :
  exists f,
    Audio.modulateAudioByScroll (Audio.boot Audio.init) wheel2 = Some f /\
    500 <= f <= 22000.
Proof.
  destruct (proj2 (lowpass_target_frequency (Audio.boot Audio.init)
                     wheel2 wheel2) eq_refl) as (f & _ & H1 & _ & H3 & _).
  exists f. split; assumption.
Defined.

(** ** Hourglass *)

(** X14.  Whatever progress and velocity the trigger reports, the
    hourglass keeps a progress in [[0, 1]] and a non-negative velocity;
    the top sand surface lies between 25 and 193, the bottom one
    between 207 and 375 (so the floor at 207 never has to cut, and the
    top sand stays above the neck), and the two always add up to 400:
    what leaves the top arrives at the bottom. *)
Theorem hourglass_sand_levels (p v : Q) (h : Hourglass.t) :
  let h' := Hourglass.setScrollData p v h in
  0 <= Hourglass.progress h' <= 1 /\
  0 <= Hourglass.scrollVelocity h' /\
  Hourglass.scrollVelocity h' == Hourglass.scrollVelocity
                                   (Hourglass.setScrollData p (- v) h) /\
  25 <= Hourglass.topY h' <= 193 /\
  207 <= Hourglass.botY h' <= 375 /\
  Hourglass.botDrawn h' == Hourglass.botY h' /\
  Hourglass.topY h' + Hourglass.botY h' == 400 /\
  (p <= 0 -> Hourglass.topY h' == 25) /\
  (1 <= p -> Hourglass.topY h' == 193).
Proof.
  cbn zeta.
  unfold Hourglass.botDrawn, Hourglass.topY, Hourglass.botY,
    Hourglass.setScrollData.
  cbn [Hourglass.progress Hourglass.scrollVelocity].
  split_bounds; try (rewrite Qabs_opp; reflexivity); name_minmax; lra.
Qed.

(** X14 at work: a trigger that overshoots to 1.2 leaves the top sand
    at the neck. *)
Lemma hourglass_sand_levels_witness :
  Hourglass.topY (Hourglass.setScrollData 1.2 (- (460)) Hourglass.init)
    == 193.
Proof.
  apply (hourglass_sand_levels 1.2 (- (460)) Hourglass.init).
  vm_compute. discriminate.
Defined.

Lemma Qceiling_pos (x : Q) : 0 < x -> 1 <= inject_Z (Qceiling x).
Proof.
  intros H. change 1 with (inject_Z 1). rewrite <- Zle_Qle.
  assert (Hc : (0 < Qceiling x)%Z); [| lia].
  rewrite Zlt_Qlt. change (inject_Z 0) with 0.
  apply Qlt_le_trans with x; [exact H | apply Qle_ceiling].
Qed.

(** X15.  The hourglass spawns grains only inside the scene (progress
    strictly between 0.05 and 0.95) and above a velocity of 5; it then
    spawns a whole number of grains between 1 and 5, 5 exactly when the
    velocity exceeds 400.  Under these conditions it never waits more
    than 200 ms between two spawns. *)
Theorem hourglass_spawn (time : Q) (h : Hourglass.t) :
  (Hourglass.spawnDue time h = true ->
   0.05 < Hourglass.progress h < 0.95 /\
   5 < Hourglass.scrollVelocity h /\
   (exists n : Z, Hourglass.spawnCount h == inject_Z n /\ (1 <= n <= 5)%Z) /\
   (Hourglass.spawnCount h == 5 <-> 400 < Hourglass.scrollVelocity h)) /\
  (0.05 < Hourglass.progress h < 0.95 ->
   5 < Hourglass.scrollVelocity h ->
   200 < time - Hourglass.lastSpawnTime h ->
   Hourglass.spawnDue time h = true).
Proof.
  unfold Hourglass.spawnDue, Hourglass.spawnCount.
  set (v := Hourglass.scrollVelocity h). set (p := Hourglass.progress h).
  assert (Hmax : 10 <= Qmax 10 v) by apply Q.le_max_l.
  split.
  - intros H.
    apply andb_prop in H as [H H4]. apply andb_prop in H as [H H3].
    apply andb_prop in H as [H1 H2].
    apply Qlt_bool_iff in H1, H2, H3.
    split; [split; assumption |]. split; [exact H3 |].
    assert (Hc : 1 <= inject_Z (Qceiling (v / 100))).
    { apply Qceiling_pos. unfold Qdiv.
      assert (Hinv : / 100 == 1 # 100) by reflexivity. rewrite Hinv. lra. }
    split.
    + destruct (Q.min_spec 5 (inject_Z (Qceiling (v / 100))))
        as [[Hlt Hm] | [Hle Hm]].
      * exists 5%Z. split; [exact Hm | lia].
      * exists (Qceiling (v / 100)). split; [exact Hm |].
        change 1 with (inject_Z 1) in Hc. change 5 with (inject_Z 5) in Hle.
        rewrite <- Zle_Qle in Hc, Hle. lia.
    + assert (Hfive : 5 <= inject_Z (Qceiling (v / 100)) <-> 400 < v).
      { split.
        - intros H5. change 5 with (inject_Z 5) in H5.
          rewrite <- Zle_Qle in H5.
          pose proof (Qceiling_lt (v / 100)) as Hl.
          assert (H4' : inject_Z 4 <= inject_Z (Qceiling (v / 100) - 1)).
          { rewrite <- Zle_Qle. lia. }
          change (inject_Z 4) with 4 in H4'.
          assert (Hv : 4 < v / 100) by lra.
          unfold Qdiv in Hv.
          assert (Hinv : / 100 == 1 # 100) by reflexivity.
          rewrite Hinv in Hv. lra.
        - intros Hv.
          assert (H4' : 4 < inject_Z (Qceiling (v / 100))).
          { apply Qlt_le_trans with (v / 100); [| apply Qle_ceiling].
            unfold Qdiv.
            assert (Hinv : / 100 == 1 # 100) by reflexivity.
            rewrite Hinv. lra. }
          change 4 with (inject_Z 4) in H4'. rewrite <- Zlt_Qlt in H4'.
          change 5 with (inject_Z 5). rewrite <- Zle_Qle. lia. }
      rewrite <- Hfive.
      set (c := inject_Z (Qceiling (v / 100))) in *.
      bounds.
  - intros [H1 H2] H3 H4.
    apply andb_true_intro. split.
    + apply andb_true_intro. split; [| apply Qlt_bool_iff; exact H3].
      apply andb_true_intro. split; apply Qlt_bool_iff; assumption.
    + apply Qlt_bool_iff.
      apply Qle_lt_trans with 200; [| exact H4].
      apply Qle_shift_div_r; lra.
Qed.

(** X15 at work: mid-scene, velocity 460, 300 ms since the last spawn. *)
Lemma hourglass_spawn_witness :
  let h := Hourglass.setScrollData 0.5 460 Hourglass.init in
  Hourglass.spawnDue 300 h = true /\ Hourglass.spawnCount h == 5.
Proof.
  cbn zeta.
  assert (Hd : Hourglass.spawnDue 300
                 (Hourglass.setScrollData 0.5 460 Hourglass.init) = true).
  { apply (proj2 (hourglass_spawn 300
                    (Hourglass.setScrollData 0.5 460 Hourglass.init))).
    - split; vm_compute; reflexivity.
    - vm_compute. reflexivity.
    - vm_compute. reflexivity. }
  split; [exact Hd |].
  apply (proj1 (hourglass_spawn 300
                  (Hourglass.setScrollData 0.5 460 Hourglass.init)) Hd).
  vm_compute. reflexivity.
Defined.

(** ** Melting clocks *)

Lemma setMeltFactor_range (f m : Q) :
  0 <= m < 1 -> m <= setMeltFactor f m < 1 \/ 0 <= setMeltFactor f m <= m.
Proof.
  intros Hm. unfold setMeltFactor. name_minmax. lra.
Qed.

Lemma melt_fold_range (ps : list Q) (m : Q) :
  0 <= m < 1 -> 0 <= fold_left (fun m q => daliOnUpdate q m) ps m < 1.
Proof.
  revert m. induction ps as [| q ps IH]; intros m Hm; [exact Hm |].
  cbn [fold_left]. apply IH. unfold daliOnUpdate.
  destruct (setMeltFactor_range (q * 1.5) m Hm); lra.
Qed.



(** ** Timeline *)

Lemma mark_length (i index : Z) (ns : list bool) :
  length (Timeline.mark i index ns) = length ns.
Proof.
  revert i. induction ns as [| b ns IH]; intros i; [reflexivity |].
  cbn [Timeline.mark length]. rewrite IH. reflexivity.
Qed.

Lemma mark_nth (i index : Z) (ns : list bool) (k : nat) :
  (k < length ns)%nat ->
  nth_error (Timeline.mark i index ns) k = Some (i + Z.of_nat k <=? index)%Z.
Proof.
  revert i k. induction ns as [| b ns IH]; intros i k Hk.
  - cbn in Hk. lia.
  - destruct k as [| k].
    + cbn. rewrite Z.add_0_r. reflexivity.
    + cbn [Timeline.mark nth_error]. rewrite IH by (cbn in Hk; lia).
      do 2 f_equal. lia.
Qed.

(** X17.  Activating node [index] of a timeline marks exactly the nodes
    up to [index] as active, whatever was marked before (so scrolling
    back unmarks the later ones), keeps the number of nodes, and scales
    the line to [(index + 1) / nodes.length], a fraction in [(0, 1]];
    activating the same node again changes nothing. *)
Theorem timeline_activates_prefix (index : Z) (tl : Timeline.t) (k : nat) :
  (0 <= index < Z.of_nat (length (Timeline.nodes tl)))%Z ->
  index <> Timeline.activeIndex tl ->
  (k < length (Timeline.nodes tl))%nat ->
  let tl' := Timeline.activateNode index tl in
  length (Timeline.nodes tl') = length (Timeline.nodes tl) /\
  nth_error (Timeline.nodes tl') k = Some (Z.of_nat k <=? index)%Z /\
  Timeline.activeIndex tl' = index /\
  (exists q, Timeline.lineScaleY tl' = Some q /\ 0 < q <= 1 /\
             q * inject_Z (Z.of_nat (length (Timeline.nodes tl)))
               == inject_Z (index + 1)) /\
  Timeline.activateNode index tl' = tl'.
Proof.
  intros Hi Hne Hk. cbn zeta. unfold Timeline.activateNode at 1 2 3 4.
  apply Z.eqb_neq in Hne. rewrite Hne.
  cbn [Timeline.nodes Timeline.activeIndex Timeline.lineScaleY].
  split; [apply mark_length |].
  split; [rewrite mark_nth by exact Hk; reflexivity |].
  split; [reflexivity |].
  split.
  - eexists. split; [reflexivity |].
    set (n := Z.of_nat (length (Timeline.nodes tl))) in *.
    assert (Hn : 0 < inject_Z n).
    { change 0 with (inject_Z 0). rewrite <- Zlt_Qlt. lia. }
    assert (Hi1 : 0 < inject_Z (index + 1) <= inject_Z n).
    { split.
      - change 0 with (inject_Z 0). rewrite <- Zlt_Qlt. lia.
      - rewrite <- Zle_Qle. lia. }
    split; [split |].
    + apply Qlt_shift_div_l; lra.
    + apply Qle_shift_div_r; lra.
    + field. lra.
  - unfold Timeline.activateNode. rewrite Hne.
    cbn [Timeline.activeIndex]. rewrite Z.eqb_refl. reflexivity.
Qed.

(** X17 at work: five nodes, the third gets activated. *)
Lemma timeline_activates_prefix_witness :
  let tl := Timeline.init [false; false; false; false; false] in
  nth_error (Timeline.nodes (Timeline.activateNode 2 tl)) 3 = Some false /\
  nth_error (Timeline.nodes (Timeline.activateNode 2 tl)) 2 = Some true.
Proof.
  cbn zeta. split.
  - apply (timeline_activates_prefix 2
             (Timeline.init [false; false; false; false; false]) 3).
    + cbn. lia.
    + cbn. lia.
    + cbn. lia.
  - apply (timeline_activates_prefix 2
             (Timeline.init [false; false; false; false; false]) 2).
    + cbn. lia.
    + cbn. lia.
    + cbn. lia.
Defined.
